(** * Unmanic Sub-Sync plugin: a shallow embedding of [plugin.py]

    The plugin is a set of three hooks called by the Unmanic host:
    [on_library_management_file_test] (inclusion test),
    [on_worker_process] (command builder) and
    [on_postprocessor_task_results] (completion recorder).

    Python [str] values are modelled as [string], restricted to code points
    below 256; [os.path] is the POSIX flavour ([posixpath]), the platform the
    host runs on.  The [data] dictionary handed to a hook is mutated in
    place, so it lives in the state of a small state-and-exception monad
    together with the persisted [.unmanic] records and the log. *)

From Stdlib Require Import ZArith Ascii String List.
From stdpp Require Import gmap gmultiset strings list.

Open Scope string_scope.

(** ** Python string primitives *)

Module Str.

Definition chr (n : nat) : ascii := ascii_of_nat n.

(** [len(s)] as an integer. *)
Definition len (s : string) : Z := Z.of_nat (String.length s).

Fixpoint take (n : nat) (s : string) : string :=
  match n, s with
  | O, _ => EmptyString
  | S _, EmptyString => EmptyString
  | S n', String c s' => String c (take n' s')
  end.

Fixpoint drop (n : nat) (s : string) : string :=
  match n, s with
  | O, _ => s
  | S _, EmptyString => EmptyString
  | S n', String _ s' => drop n' s'
  end.

(** A slice bound is clamped the way Python does it: a negative bound
    counts from the end, and everything is cut to [0 .. len s]. *)
Definition clamp (s : string) (i : Z) : nat :=
  Z.to_nat (Z.min (len s) (if (i <? 0)%Z then Z.max 0 (len s + i) else i)).

(** [s[:j]] *)
Definition slice_to (s : string) (j : Z) : string := take (clamp s j) s.

(** [s[i:]] *)
Definition slice_from (s : string) (i : Z) : string := drop (clamp s i) s.

(** [s[i:j]] *)
Definition slice (s : string) (i j : Z) : string :=
  take (clamp s j - clamp s i) (drop (clamp s i) s).

Fixpoint rfind_from (c : ascii) (s : string) (i last : Z) : Z :=
  match s with
  | EmptyString => last
  | String a s' =>
      rfind_from c s' (i + 1) (if Ascii.eqb a c then i else last)
  end.

(** [s.rfind(c)] for a one-character needle: the last index, or [-1]. *)
Definition rfind (c : ascii) (s : string) : Z := rfind_from c s 0 (-1).

(** [s.startswith(p)] *)
Fixpoint startswith (p s : string) : bool :=
  match p, s with
  | EmptyString, _ => true
  | String _ _, EmptyString => false
  | String a p', String b s' => Ascii.eqb a b && startswith p' s'
  end.

(** [sub in s] *)
Fixpoint contains (sub s : string) : bool :=
  startswith sub s ||
  match s with
  | EmptyString => false
  | String _ s' => contains sub s'
  end.

Fixpoint last_char (s : string) : option ascii :=
  match s with
  | EmptyString => None
  | String c EmptyString => Some c
  | String _ s' => last_char s'
  end.

(** [s.endswith(c)] for a one-character suffix. *)
Definition endswith_char (c : ascii) (s : string) : bool :=
  match last_char s with
  | Some a => Ascii.eqb a c
  | None => false
  end.

Fixpoint all_char (c : ascii) (s : string) : bool :=
  match s with
  | EmptyString => true
  | String a s' => Ascii.eqb a c && all_char c s'
  end.

(** [s.rstrip(c)] for a one-character set. *)
Fixpoint rstrip (c : ascii) (s : string) : string :=
  match s with
  | EmptyString => EmptyString
  | String a s' => if all_char c s then EmptyString else String a (rstrip c s')
  end.

(** [str.lower] on one code point below 256: the ASCII capitals and the
    Latin-1 capitals U+00C0..U+00DE (the multiplication sign U+00D7
    excepted) move up by 32; every other code point is its own lower
    case. *)
Definition lower_char (c : ascii) : ascii :=
  let n := nat_of_ascii c in
  if (65 <=? n)%nat && (n <=? 90)%nat then chr (n + 32)
  else if (192 <=? n)%nat && (n <=? 222)%nat && negb (n =? 215)%nat
       then chr (n + 32)
  else c.

Fixpoint lower (s : string) : string :=
  match s with
  | EmptyString => EmptyString
  | String c s' => String (lower_char c) (lower s')
  end.

(** [s.replace(c, r)] for a one-character pattern. *)
Fixpoint replace_char (c : ascii) (r : string) (s : string) : string :=
  match s with
  | EmptyString => EmptyString
  | String a s' =>
      if Ascii.eqb a c then r ++ replace_char c r s'
      else String a (replace_char c r s')
  end.

(** Iterating a [str] yields its one-character substrings. *)
Fixpoint chars (s : string) : list string :=
  match s with
  | EmptyString => []
  | String c s' => String c EmptyString :: chars s'
  end.

Definition is_empty (s : string) : bool :=
  match s with EmptyString => true | _ => false end.

End Str.

(** ** [os.path] (posixpath / genericpath) *)

Module PosixPath.

Definition sep : ascii := "/"%char.
Definition extsep : ascii := "."%char.

(** The scan over the leading dots of the last component in
    [genericpath._splitext]: [n] is the number of indices left before
    [dotIndex]. *)
Fixpoint splitext_scan (p : string) (dotIndex : Z) (n : nat)
    (filenameIndex : Z) : string * string :=
  match n with
  | O => (p, Str.slice_to p 0)
  | S n' =>
      if negb (String.eqb (Str.slice p filenameIndex (filenameIndex + 1))
                          (String extsep EmptyString))
      then (Str.slice_to p dotIndex, Str.slice_from p dotIndex)
      else splitext_scan p dotIndex n' (filenameIndex + 1)
  end.

Definition splitext (p : string) : string * string :=
  let sepIndex := Str.rfind sep p in
  let dotIndex := Str.rfind extsep p in
  if (sepIndex <? dotIndex)%Z then
    let filenameIndex := (sepIndex + 1)%Z in
    splitext_scan p dotIndex (Z.to_nat (dotIndex - filenameIndex)) filenameIndex
  else (p, Str.slice_to p 0).

Definition basename (p : string) : string :=
  let i := (Str.rfind sep p + 1)%Z in
  Str.slice_from p i.

Definition dirname (p : string) : string :=
  let i := (Str.rfind sep p + 1)%Z in
  let head := Str.slice_to p i in
  if negb (Str.is_empty head) && negb (Str.all_char sep head)
  then Str.rstrip sep head
  else head.

(** [os.path.join(a, b)] with one tail component. *)
Definition join (a b : string) : string :=
  if Str.startswith "/" b then b
  else if Str.is_empty a || Str.endswith_char sep a then a ++ b
  else a ++ "/" ++ b.

End PosixPath.

(** ** [shlex.quote] *)

Module Shlex.

Definition squote : ascii := "'"%char.
Definition dquote : ascii := "034"%char.

Definition between (lo hi : nat) (c : ascii) : bool :=
  (lo <=? nat_of_ascii c)%nat && (nat_of_ascii c <=? hi)%nat.

(** The complement of [_find_unsafe]'s class [[^\w@%+=:,./-]], with
    [re.ASCII]: letters, digits, underscore and nine punctuation marks. *)
Definition safe_char (c : ascii) : bool :=
  between 97 122 c || between 65 90 c || between 48 57 c ||
  existsb (Ascii.eqb c) (list_ascii_of_string "_@%+=:,./-").

Fixpoint all_safe (s : string) : bool :=
  match s with
  | EmptyString => true
  | String c s' => safe_char c && all_safe s'
  end.

(** What a single quote inside the argument is replaced by: close the
    quote, a double-quoted single quote, reopen the quote. *)
Definition squote_escape : string :=
  String squote (String dquote (String squote (String dquote
    (String squote EmptyString)))).

Definition quote (s : string) : string :=
  if Str.is_empty s then String squote (String squote EmptyString)
  else if all_safe s then s
  else String squote (Str.replace_char squote squote_escape s)
         ++ String squote EmptyString.

End Shlex.

(** ** Python values, exceptions and the hook monad *)

(** The values that occur in the hooks' dictionaries and in the persisted
    records.  A list holds strings (file names, paths, argument vectors);
    [VCallable] stands for a bound method handed back to the host. *)
Inductive value : Type :=
  | VNone
  | VBool (b : bool)
  | VInt (n : Z)
  | VStr (s : string)
  | VList (l : list string)
  | VCallable (name : string) (bound_to : string).

Inductive exn : Type :=
  | TypeError
  | AttributeError
  | KeyError
  | OSError
  | LookupError.

Inductive outcome (A : Type) : Type :=
  | Ret (a : A)
  | Raise (e : exn).
Arguments Ret {A} a.
Arguments Raise {A} e.

Inductive level : Type := DEBUG | INFO | WARNING.

Inductive logarg : Type :=
  | LArg (v : value)
  | LExn (e : exn)
  | LData (d : gmap string value).

(** A log call: the level, the message template and the arguments that
    [str.format] was applied to (none when it was not applied). *)
Record log_record : Type := mkLog {
  log_level : level;
  log_template : string;
  log_args : list logarg
}.

(** A mutating call on a directory's record object. *)
Inductive record_call : Type :=
  | CSet (directory section option : string) (v : value)
  | CSave (directory : string).

(** What the host supplies besides the dictionary: the file system as
    [os.listdir] sees it ([None]: the call raises [OSError]) and the media
    probe of [sub_sync.lib.ffmpeg], which is not part of [plugin.py] and is
    taken as given. *)
Record host : Type := mkHost {
  listdir : string -> option (list string);
  probe_file : value -> bool
}.

Record state : Type := mkState {
  st_data : gmap string value;
  st_store : gmap string (gmap (string * string) value);
  st_calls : list record_call;
  st_log : list log_record
}.

Definition with_data (f : gmap string value -> gmap string value)
    (s : state) : state :=
  mkState (f (st_data s)) (st_store s) (st_calls s) (st_log s).

Definition with_log (r : log_record) (s : state) : state :=
  mkState (st_data s) (st_store s) (st_calls s) (st_log s ++ [r])%list.

(** A hook body: it runs on the state and either returns or raises; the
    mutations made before a [raise] stay, as they do on a Python dict. *)
Definition M (A : Type) : Type := state -> outcome A * state.

#[global] Instance M_ret : MRet M := fun A a s => (Ret a, s).

#[global] Instance M_bind : MBind M := fun A B f m s =>
  match m s with
  | (Ret a, s') => f a s'
  | (Raise e, s') => (Raise e, s')
  end.

Definition raise {A : Type} (e : exn) : M A := fun s => (Raise e, s).

(** [try: body except Exception as e: handler e] *)
Definition try_except {A : Type} (body : M A) (handler : exn -> M A) : M A :=
  fun s =>
    match body s with
    | (Ret a, s') => (Ret a, s')
    | (Raise e, s') => handler e s'
    end.

(** [for x in xs: body x] *)
Fixpoint for_each {A : Type} (xs : list A) (body : A -> M unit) : M unit :=
  match xs with
  | [] => mret tt
  | x :: xs' => body x;; for_each xs' body
  end.

(** [data.get(k)] *)
Definition data_get (k : string) : M value :=
  fun s => (Ret (default VNone (st_data s !! k)), s).

(** [data[k]] *)
Definition data_index (k : string) : M value :=
  fun s =>
    match st_data s !! k with
    | Some v => (Ret v, s)
    | None => (Raise KeyError, s)
    end.

(** [data[k] = v] *)
Definition data_set (k : string) (v : value) : M unit :=
  fun s => (Ret tt, with_data (insert k v) s).

Definition current_data : M (gmap string value) :=
  fun s => (Ret (st_data s), s).

(** [logger.<level>(template.format(args))]; like every [Logger] method it
    evaluates to [None]. *)
Definition logger (l : level) (template : string) (args : list logarg)
    : M value :=
  fun s => (Ret VNone, with_log (mkLog l template args) s).

(** [receiver.format(...)]: an attribute of [str]; any other receiver in
    this model has no such attribute. *)
Definition method_format (receiver : value) (args : list logarg) : M value :=
  match receiver with
  | VStr s => mret (VStr s)
  | _ => raise AttributeError
  end.

(** A path argument of an [os.path] function must be a [str]. *)
Definition fspath (v : value) : M string :=
  match v with
  | VStr s => mret s
  | _ => raise TypeError
  end.

Definition os_listdir (h : host) (d : string) : M (list string) :=
  fun s =>
    match listdir h d with
    | Some files => (Ret files, s)
    | None => (Raise OSError, s)
    end.

(** Python truthiness. *)
Definition truthy (v : value) : bool :=
  match v with
  | VNone => false
  | VBool b => b
  | VInt n => negb (n =? 0)%Z
  | VStr s => negb (Str.is_empty s)
  | VList l => match l with [] => false | _ => true end
  | VCallable _ _ => true
  end.

(** The items a [for] loop draws from a value. *)
Definition iterate (v : value) : M (list string) :=
  match v with
  | VStr s => mret (Str.chars s)
  | VList l => mret l
  | _ => raise TypeError
  end.

(** [collections.Counter(v)]: the multiset of the items of [v];
    [Counter(None)] is empty.  Two counters are equal when every item has
    the same count in both. *)
Definition Counter (v : value) : M (gmultiset string) :=
  match v with
  | VNone => mret ∅
  | VStr s => mret (list_to_set_disj (Str.chars s))
  | VList l => mret (list_to_set_disj l)
  | _ => raise TypeError
  end.

(** The accumulation loop
    [acc = []; for x in xs: if keep x: acc.append(x)]. *)
Definition collect (keep : string -> bool) (xs : list string) : list string :=
  foldl (fun acc x => if keep x then (acc ++ [x])%list else acc) [] xs.

(** ** The host's per-directory record store *)

Module DirInfo.

(** Modelled from the spec: the host class [UnmanicDirectoryInfo], which
    is imported by [plugin.py] and not part of it.  The spec gives it as
    an opaque key-value store scoped per directory with get / set / save,
    where a lookup of a missing entry fails.  The object made for a
    directory holds that directory's persisted entries; [set] changes the
    object, [save] persists it. *)
Definition load (store : gmap string (gmap (string * string) value))
    (directory : string) : gmap (string * string) value :=
  default ∅ (store !! directory).

Definition get (info : gmap (string * string) value)
    (section option : string) : outcome value :=
  match info !! (section, option) with
  | Some v => Ret v
  | None => Raise LookupError
  end.

Definition set (info : gmap (string * string) value)
    (section option : string) (v : value) : gmap (string * string) value :=
  <[(section, option) := v]> info.

Definition save (store : gmap string (gmap (string * string) value))
    (directory : string) (info : gmap (string * string) value)
    : gmap string (gmap (string * string) value) :=
  <[directory := info]> store.

End DirInfo.

(** [UnmanicDirectoryInfo(directory)] *)
Definition UnmanicDirectoryInfo (directory : string)
    : M (gmap (string * string) value) :=
  fun s => (Ret (DirInfo.load (st_store s) directory), s).

(** [directory_info.get(section, option)] *)
Definition dirinfo_get (info : gmap (string * string) value)
    (section option : string) : M value :=
  fun s => (DirInfo.get info section option, s).

(** [directory_info.set(section, option, v)]; the updated object is
    returned. *)
Definition dirinfo_set (directory : string)
    (info : gmap (string * string) value) (section option : string)
    (v : value) : M (gmap (string * string) value) :=
  fun s =>
    (Ret (DirInfo.set info section option v),
     mkState (st_data s) (st_store s)
             (st_calls s ++ [CSet directory section option v])%list (st_log s)).

(** [directory_info.save()] *)
Definition dirinfo_save (directory : string)
    (info : gmap (string * string) value) : M unit :=
  fun s =>
    (Ret tt,
     mkState (st_data s) (DirInfo.save (st_store s) directory info)
             (st_calls s ++ [CSave directory])%list (st_log s)).

(** A host call whose result the hooks never use ([Settings()],
    [System().info()], [settings.get_setting(..)], [Probe(..)],
    [Parser(..)], [parser.set_probe(..)]); taken to return normally. *)
Definition host_call (what : string) : M value := mret VNone.

(** [acc = init; for x in xs: acc = body acc x], with effects. *)
Fixpoint fold_each {A B : Type} (body : B -> A -> M B) (acc : B)
    (xs : list A) : M B :=
  match xs with
  | [] => mret acc
  | x :: xs' => acc' ← body acc x; fold_each body acc' xs'
  end.

(** ** The plugin *)

Import PosixPath.

(** The hooks end in [return data] (the dictionary they were given, which
    is the one in the state) or, on one path, in a bare [return]. *)
Inductive returned : Type := RData | RNone.

(** The test of line 89: extension [.srt] in any case, and the media file's
    name without its extension occurs in the file name. *)
Definition is_sub_of_nocase (path file : string) : bool :=
  String.eqb (Str.lower (snd (splitext file))) ".srt"
  && Str.contains (fst (splitext (basename path))) file.

(** The test of lines 171 and 224: extension exactly [.srt]. *)
Definition is_sub_of (path file : string) : bool :=
  String.eqb (snd (splitext file)) ".srt"
  && Str.contains (fst (splitext (basename path))) file.

Definition subs_already_synced (h : host) (path : string) : M bool :=
  directory_info ← UnmanicDirectoryInfo (dirname path);
  already_synced ←
    try_except
      (dirinfo_get directory_info "subs_synced" (Str.lower (basename path)))
      (fun e =>
         logger DEBUG "Unknown exception {}." [LExn e];;
         mret (VStr EmptyString));
  files ← os_listdir h (dirname path);
  let srts := collect (is_sub_of_nocase path) files in
  logger DEBUG "already_synced: {}" [LArg already_synced];;
  logger DEBUG "srts: {}" [LArg (VList srts)];;
  recorded ← Counter already_synced;
  found ← Counter (VList srts);
  if bool_decide (recorded = found) then
    logger DEBUG "File's subtitles were previously synced with {}."
           [LArg already_synced];;
    mret true
  else mret false.

Definition on_library_management_file_test (h : host) : M returned :=
  abspath ← data_get "path";
  path ← fspath abspath;
  logger DEBUG "Looking at file extension {} from file {}"
         [LArg (VStr (Str.lower (snd (splitext path)))); LArg abspath];;
  (if String.eqb (Str.lower (snd (splitext path))) ".mp4" then
     synced ← subs_already_synced h path;
     if negb synced then
       data_set "add_file_to_pending_tasks" (VBool true);;
       logger DEBUG
         "File '{}' should be added to task list. File has not been previously been synced."
         [LArg abspath];;
       mret tt
     else
       logger DEBUG "File '{}' has been previously been synced." [LArg abspath];;
       mret tt
   else mret tt);;
  mret RData.

(** One pass of the loop of lines 180-182: the text appended for [srt]. *)
Definition sync_segment (abspath srt : string) : string :=
  "ffsubsync " ++ Shlex.quote abspath
  ++ " -i " ++ Shlex.quote (join (dirname abspath) srt)
  ++ " -o " ++ Shlex.quote (join (dirname abspath) srt)
  ++ " --gss;".

Definition on_worker_process (h : host) : M returned :=
  host_call "Settings()";;
  host_call "System().info()";;
  data_set "exec_command" (VList []);;
  data_set "repeat" (VBool false);;
  host_call "settings.get_setting('insert_string_into_srt_file_name')";;
  host_call "settings.get_setting('execute_command')";;
  abspath ← data_get "original_file_path";
  host_call "Probe(logger, allowed_mimetypes=['video'])";;
  if negb (probe_file h abspath) then
    warned ← logger WARNING "Failed probed for file {}" [];
    method_format warned [LArg abspath];;
    mret RNone
  else
    path ← fspath abspath;
    allfiles ← os_listdir h (dirname path);
    let srtfiles := collect (is_sub_of path) allfiles in
    logger DEBUG "list of found SRT files: {}" [LArg (VList srtfiles)];;
    if (length srtfiles <? 1)%nat then mret RData
    else
      longcommand ←
        fold_each
          (fun longcommand srt =>
             logger DEBUG "Adding command for {} and {}"
                    [LArg abspath; LArg (VStr srt)];;
             mret (longcommand ++ sync_segment path srt))
          EmptyString srtfiles;
      let longcommand := Str.slice_to longcommand (-2) in
      data_set "exec_command" (VList ["bash"; "-c"; longcommand]);;
      exec_command ← data_index "exec_command";
      (if truthy exec_command then
         host_call "Parser(logger)";;
         host_call "parser.set_probe(probe)";;
         data_set "command_progress_parser"
                  (VCallable "parser.parse_progress" path)
       else mret tt);;
      mret RData.

(** The body of the loop of lines 217-228. *)
Definition record_destination (h : host) (destination_file : string)
    : M unit :=
  directory_info ← UnmanicDirectoryInfo (dirname destination_file);
  data ← current_data;
  logger DEBUG "received data object {}" [LData data];;
  logger DEBUG "received source_data object {}" [LData data];;
  allfiles ← os_listdir h (dirname destination_file);
  let srtfiles := collect (is_sub_of destination_file) allfiles in
  directory_info ←
    dirinfo_set (dirname destination_file) directory_info
                "subs_synced" (basename destination_file) (VList srtfiles);
  dirinfo_save (dirname destination_file) directory_info;;
  logger INFO "subtitles synced for '{}' and recorded in .unmanic file."
         [LArg (VStr destination_file)];;
  mret tt.

Definition on_postprocessor_task_results (h : host) : M returned :=
  success ← data_get "task_processing_success";
  if negb (truthy success) then mret RData
  else
    destination_files ← data_get "destination_files";
    destinations ← iterate destination_files;
    for_each destinations (record_destination h);;
    mret RData.

(** ** Notions the specification speaks of *)

Definition flag : string := "add_file_to_pending_tasks".

(** The subtitle files currently found for a media path: the entries of
    its directory with extension [.srt] in any case whose name contains
    the media file's name without extension. *)
Definition subtitles_on_disk (path : string) (files : list string)
    : list string :=
  filter (fun file => is_sub_of_nocase path file = true) files.

(** The subtitle candidates of the command builder and of the recorder:
    the same, with the extension matched exactly. *)
Definition subtitle_candidates (path : string) (files : list string)
    : list string :=
  filter (fun file => is_sub_of path file = true) files.

(** The persisted entry for a media path: the one of its directory's
    record, in section [subs_synced], under the lower-cased base name. *)
Definition persisted_entry (s : state) (path : string) : option value :=
  store_dir ← st_store s !! dirname path;
  store_dir !! ("subs_synced", Str.lower (basename path)).

(** The names that entry holds; no entry holds none.  [None] when the
    entry is a value that cannot be iterated. *)
Definition recorded_names (s : state) (path : string)
    : option (list string) :=
  match persisted_entry s path with
  | None | Some VNone => Some []
  | Some (VStr t) => Some (Str.chars t)
  | Some (VList l) => Some l
  | Some _ => None
  end.

(** The mapping once the defaults of lines 152-153 are in. *)
Definition defaults (data : gmap string value) : gmap string value :=
  <["repeat" := VBool false]> (<["exec_command" := VList []]> data).

(** What the recorder writes for one destination: the directory, the
    entry key and the value, when the directory can be listed. *)
Definition record_target (h : host) (destination_file : string)
    : option (string * (string * string) * value) :=
  match listdir h (dirname destination_file) with
  | Some allfiles =>
      Some (dirname destination_file,
            ("subs_synced", basename destination_file),
            VList (subtitle_candidates destination_file allfiles))
  | None => None
  end.

(** The persisted records after one entry of a directory was set and the
    directory's object saved. *)
Definition store_write (directory : string) (key : string * string)
    (v : value) (store : gmap string (gmap (string * string) value))
    : gmap string (gmap (string * string) value) :=
  DirInfo.save store directory
    (DirInfo.set (DirInfo.load store directory) key.1 key.2 v).

(** The persisted records after the recorder's loop: it stops at the first
    destination whose directory cannot be listed. *)
Fixpoint store_after (h : host) (destinations : list string)
    (store : gmap string (gmap (string * string) value))
    : gmap string (gmap (string * string) value) :=
  match destinations with
  | [] => store
  | d :: ds =>
      match record_target h d with
      | Some (directory, key, v) =>
          store_after h ds (store_write directory key v store)
      | None => store
      end
  end.

(** The destinations the loop gets through. *)
Fixpoint processed (h : host) (destinations : list string) : list string :=
  match destinations with
  | [] => []
  | d :: ds =>
      match record_target h d with
      | Some _ => d :: processed h ds
      | None => []
      end
  end.

(** The record calls the loop makes. *)
Definition calls_of (h : host) (destinations : list string)
    : list record_call :=
  concat
    (map (fun d =>
            match record_target h d with
            | Some (directory, key, v) =>
                [CSet directory key.1 key.2 v; CSave directory]
            | None => []
            end)
         (processed h destinations)).

(** A destination's entry is in place. *)
Definition entry_holds (h : host) (d : string)
    (store : gmap string (gmap (string * string) value)) : Prop :=
  match record_target h d with
  | Some (directory, key, v) =>
      exists m, store !! directory = Some m /\ m !! key = Some v
  | None => True
  end.

(** A segment without its last two characters. *)
Definition sync_body (abspath srt : string) : string :=
  "ffsubsync " ++ Shlex.quote abspath
  ++ " -i " ++ Shlex.quote (join (dirname abspath) srt)
  ++ " -o " ++ Shlex.quote (join (dirname abspath) srt)
  ++ " --gs".

(** The segments of a list of candidates, one after the other. *)
Definition sync_segments (abspath : string) (srtfiles : list string)
    : string :=
  foldr (fun srt rest => sync_segment abspath srt ++ rest) EmptyString srtfiles.

(** The script the specification describes: one invocation per candidate,
    joined by the statement terminator, nothing trailing. *)
Definition sync_invocation (abspath srt : string) : string :=
  "ffsubsync " ++ Shlex.quote abspath
  ++ " -i " ++ Shlex.quote (join (dirname abspath) srt)
  ++ " -o " ++ Shlex.quote (join (dirname abspath) srt)
  ++ " --gss".

Definition chained_invocations (abspath : string) (srtfiles : list string)
    : string :=
  String.concat ";" (map (sync_invocation abspath) srtfiles).

(** The script the command builder computes (lines 179-183). *)
Definition longcommand (abspath : string) (srtfiles : list string) : string :=
  Str.slice_to
    (foldl (fun acc srt => acc ++ sync_segment abspath srt) EmptyString srtfiles)
    (-2).

(** ** How a shell reads a script *)

Module Sh.

(** The reading of a [bash -c] script, for the part of the shell grammar
    the scripts of this plugin are written in: words separated by
    blanks, commands ended by [;], single quotes (everything up to the
    next single quote is literal) and double quotes.  A character that
    the shell gives another meaning to, in the place where it has it,
    leaves the reading undefined ([None]), and so do an unclosed quote
    and a [;] with no command before it. *)
Inductive mode : Type := Bare | InSingle | InDouble.

Record lexer : Type := mkLexer {
  lx_mode : mode;
  lx_word : option string;          (* the word being read, if any *)
  lx_words : list string;           (* the words of the command so far *)
  lx_cmds : list (list string)      (* the commands read *)
}.

Definition init : lexer := mkLexer Bare None [] [].

Definition is_in (chars : string) (c : ascii) : bool :=
  existsb (Ascii.eqb c) (list_ascii_of_string chars).

Definition blank (c : ascii) : bool :=
  Ascii.eqb c " "%char || Ascii.eqb c "009"%char || Ascii.eqb c "010"%char.

(** Operators, expansions, globbing, comments, escapes. *)
Definition special (c : ascii) : bool := is_in "|&<>()$`\*?[#~{}!" c.

Definition push (c : ascii) (lx : lexer) : lexer :=
  mkLexer (lx_mode lx)
          (Some (default EmptyString (lx_word lx) ++ String c EmptyString))
          (lx_words lx) (lx_cmds lx).

Definition enter (m : mode) (lx : lexer) : lexer :=
  mkLexer m (Some (default EmptyString (lx_word lx)))
          (lx_words lx) (lx_cmds lx).

Definition leave (lx : lexer) : lexer :=
  mkLexer Bare (lx_word lx) (lx_words lx) (lx_cmds lx).

Definition end_word (lx : lexer) : lexer :=
  match lx_word lx with
  | Some w => mkLexer (lx_mode lx) None (lx_words lx ++ [w])%list (lx_cmds lx)
  | None => lx
  end.

Definition end_command (lx : lexer) : option lexer :=
  match lx_words lx with
  | [] => None
  | ws => Some (mkLexer (lx_mode lx) (lx_word lx) []
                        (lx_cmds lx ++ [ws])%list)
  end.

Definition step (lx : lexer) (c : ascii) : option lexer :=
  match lx_mode lx with
  | Bare =>
      if blank c then Some (end_word lx)
      else if Ascii.eqb c ";"%char then end_command (end_word lx)
      else if Ascii.eqb c Shlex.squote then Some (enter InSingle lx)
      else if Ascii.eqb c Shlex.dquote then Some (enter InDouble lx)
      else if special c then None
      else Some (push c lx)
  | InSingle =>
      if Ascii.eqb c Shlex.squote then Some (leave lx)
      else Some (push c lx)
  | InDouble =>
      if Ascii.eqb c Shlex.dquote then Some (leave lx)
      else if is_in "\$`" c then None
      else Some (push c lx)
  end.

Fixpoint run (lx : lexer) (s : string) : option lexer :=
  match s with
  | EmptyString => Some lx
  | String c s' =>
      match step lx c with
      | Some lx' => run lx' s'
      | None => None
      end
  end.

Definition finish (lx : lexer) : option (list (list string)) :=
  match lx_mode lx with
  | Bare =>
      let lx' := end_word lx in
      match lx_words lx' with
      | [] => Some (lx_cmds lx')
      | ws => Some (lx_cmds lx' ++ [ws])%list
      end
  | _ => None
  end.

(** The commands of a script, each as its list of words. *)
Definition commands (script : string) : option (list (list string)) :=
  match run init script with
  | Some lx => finish lx
  | None => None
  end.

End Sh.

(** The words the shell should see for one candidate. *)
Definition sync_words (flagword abspath srt : string) : list string :=
  ["ffsubsync"; abspath; "-i"; join (dirname abspath) srt;
   "-o"; join (dirname abspath) srt; flagword].

(** The entry of a directory's persisted record under a key, if any. *)
Definition store_entry (store : gmap string (gmap (string * string) value))
    (directory : string) (key : string * string) : option value :=
  store !! directory ≫= (fun m => m !! key).

(** The directory of a path can be listed. *)
Definition listable (h : host) (path : string) : Prop :=
  is_Some (listdir h (dirname path)).

(** [data[k1] = v1; data[k2] = v2] on the state. *)
Definition preset (k1 : string) (v1 : value) (k2 : string) (v2 : value)
    (s : state) : state :=
  with_data (fun d => <[k2 := v2]> (<[k1 := v1]> d)) s.

(** * Properties *)

Example splitext_movie :
  PosixPath.splitext "/media/tv/Movie.en.SRT" = ("/media/tv/Movie.en", ".SRT").
Proof. reflexivity. Qed.

Example splitext_dotfile :
  PosixPath.splitext "/media/tv/.unmanic" = ("/media/tv/.unmanic", EmptyString).
Proof. reflexivity. Qed.

Example splitext_dotted_dir :
  PosixPath.splitext "/media/tv.d/movie" = ("/media/tv.d/movie", EmptyString).
Proof. reflexivity. Qed.

Example dirname_basename :
  PosixPath.dirname "/media/tv//movie.mp4" = "/media/tv"
  /\ PosixPath.basename "/media/tv//movie.mp4" = "movie.mp4"
  /\ PosixPath.dirname "movie.mp4" = EmptyString
  /\ PosixPath.dirname "/movie.mp4" = "/".
Proof. repeat split. Qed.

Example join_cases :
  PosixPath.join "/media/tv" "a.srt" = "/media/tv/a.srt"
  /\ PosixPath.join "/" "a.srt" = "/a.srt"
  /\ PosixPath.join EmptyString "a.srt" = "a.srt".
Proof. repeat split. Qed.

Example quote_cases :
  Shlex.quote "/media/tv/movie.mp4" = "/media/tv/movie.mp4"
  /\ Shlex.quote "/media/my tv/movie.mp4" = "'/media/my tv/movie.mp4'"
  /\ Shlex.quote EmptyString = "''"
  /\ String.length (Shlex.quote "it's") = 10%nat.
Proof. repeat split. Qed.

Example lower_cases :
  Str.lower "Movie.MP4" = "movie.mp4" /\ Str.slice_to "abc;" (-2) = "ab"
  /\ Str.slice_to "a" (-2) = EmptyString.
Proof. repeat split. Qed.

(** ** The accumulation loop is a filter *)

Lemma collect_filter (keep : string -> bool) (xs : list string) :
  collect keep xs = filter (fun x => keep x = true) xs.
Proof.
  unfold collect.
  induction xs as [|x xs IH] using rev_ind; [reflexivity|].
  rewrite foldl_snoc, filter_app, IH.
  rewrite filter_cons, filter_nil.
  destruct (keep x) eqn:Hk.
  - rewrite decide_True by done. reflexivity.
  - rewrite decide_False by done. by rewrite app_nil_r.
Qed.

(** ** Counter equality is multiset equality *)

Lemma elements_list_to_set_disj (l : list string) :
  elements (list_to_set_disj l : gmultiset string) ≡ₚ l.
Proof.
  induction l as [|x l IH]; simpl.
  - by rewrite gmultiset_elements_empty.
  - rewrite gmultiset_elements_disj_union, gmultiset_elements_singleton.
    simpl. by rewrite IH.
Qed.

Lemma counter_eq_perm (l k : list string) :
  (list_to_set_disj l : gmultiset string) = list_to_set_disj k <-> l ≡ₚ k.
Proof.
  split.
  - intros Heq.
    rewrite <- (elements_list_to_set_disj l), <- (elements_list_to_set_disj k).
    by rewrite Heq.
  - intros Hp. by rewrite Hp.
Qed.

(** ** Running the monad *)

Ltac run_monad :=
  unfold try_except, data_get, data_set, data_index, current_data, logger,
    method_format, fspath, os_listdir, host_call, UnmanicDirectoryInfo,
    dirinfo_get, dirinfo_set, dirinfo_save, with_data, with_log in *;
  unfold mbind, mret, M_bind, M_ret, raise in *;
  cbn [fst snd st_data st_store st_calls st_log] in *.

(** ** The already-synced test *)

Lemma dirinfo_get_entry (s : state) (path : string) :
  DirInfo.get (DirInfo.load (st_store s) (dirname path)) "subs_synced"
              (Str.lower (basename path))
  = match persisted_entry s path with
    | Some v => Ret v
    | None => Raise LookupError
    end.
Proof.
  unfold DirInfo.get, DirInfo.load, persisted_entry.
  destruct (st_store s !! dirname path) as [m|]; simpl; [reflexivity|].
  by rewrite lookup_empty.
Qed.

(** With a readable directory and an entry that can be iterated, the test
    returns whether the recorded names and the subtitles on disk are the
    same multiset; it touches nothing but the log. *)
Lemma subs_already_synced_result (h : host) (path : string) (s : state)
    (files names : list string) :
  listdir h (dirname path) = Some files ->
  recorded_names s path = Some names ->
  exists lg,
    subs_already_synced h path s
    = (Ret (bool_decide (names ≡ₚ subtitles_on_disk path files)),
       mkState (st_data s) (st_store s) (st_calls s) (st_log s ++ lg)%list).
Proof.
  intros Hdir Hrec.
  unfold subs_already_synced, recorded_names, subtitles_on_disk in *.
  run_monad. rewrite dirinfo_get_entry, Hdir, collect_filter.
  set (found := filter _ files).
  assert (Hdec : forall l : list string,
    bool_decide ((list_to_set_disj l : gmultiset string) = list_to_set_disj found)
    = bool_decide (l ≡ₚ found)).
  { intros l. apply bool_decide_ext, counter_eq_perm. }
  destruct (persisted_entry s path) as [[| | |t|l|]|]; simplify_eq; cbn;
    rewrite <- ?Hdec; cbn;
    match goal with
    | |- context [bool_decide ?P] => destruct (bool_decide P)
    end; cbn; rewrite <- ?app_assoc; eexists; reflexivity.
Qed.

(** Whatever happens, the test leaves the dictionary, the records and the
    record calls as they were. *)
Lemma subs_already_synced_frame (h : host) (path : string) (s : state) :
  let s' := (subs_already_synced h path s).2 in
  st_data s' = st_data s /\ st_store s' = st_store s
  /\ st_calls s' = st_calls s.
Proof.
  unfold subs_already_synced. run_monad.
  destruct (DirInfo.get _ _ _) as [v|e]; cbn;
    (destruct (listdir h (dirname path)); cbn; [|done]).
  - destruct v; cbn; try done; case_bool_decide; cbn; done.
  - case_bool_decide; cbn; done.
Qed.

(** ** The inclusion test *)

Lemma inclusion_test_data (h : host) (s : state) :
  let s' := (on_library_management_file_test h s).2 in
  (st_data s' = st_data s
   \/ st_data s' = <[flag := VBool true]> (st_data s))
  /\ st_store s' = st_store s /\ st_calls s' = st_calls s.
Proof.
  unfold on_library_management_file_test. run_monad.
  destruct (default VNone (st_data s !! "path")); cbn; auto.
  destruct (String.eqb _ ".mp4"); cbn; auto.
  match goal with
  | |- context [subs_already_synced h ?p ?s0] =>
      pose proof (subs_already_synced_frame h p s0) as (Hd & Hs & Hc);
      destruct (subs_already_synced h p s0) as [[[]|e] s1]
  end; cbn in *; rewrite ?Hd, ?Hs, ?Hc; auto.
Qed.

(** C10: the inclusion test changes no field of the mapping other than
    [add_file_to_pending_tasks], and never clears that flag: on every
    input, whether it returns or raises, the mapping is either left
    exactly as it was or is the input with the flag set to true.  The
    persisted records are not written either. *)
Theorem C10_inclusion_test_only_raises_flag (h : host) (s : state) :
  let s' := (on_library_management_file_test h s).2 in
  (st_data s' = st_data s
   \/ st_data s' = <[flag := VBool true]> (st_data s))
  /\ (forall k, k <> flag -> st_data s' !! k = st_data s !! k)
  /\ (st_data s' !! flag = st_data s !! flag
      \/ st_data s' !! flag = Some (VBool true))
  /\ st_store s' = st_store s
  /\ st_calls s' = st_calls s.
Proof.
  intros s'. pose proof (inclusion_test_data h s) as (Hd & Hs & Hc).
  fold s' in Hd, Hs, Hc.
  split; [exact Hd|]. split; [|split; [|split; assumption]].
  - intros k Hk. destruct Hd as [->| ->]; [done|]. by rewrite lookup_insert_ne.
  - destruct Hd as [->| ->]; [by left|right]. by rewrite lookup_insert_eq.
Qed.

(** The inclusion test on an [.mp4] path with a readable directory and an
    entry that can be iterated. *)
Lemma inclusion_test_mp4 (h : host) (s : state)
    (path : string) (files names : list string) :
  st_data s !! "path" = Some (VStr path) ->
  Str.lower (snd (splitext path)) = ".mp4" ->
  listdir h (dirname path) = Some files ->
  recorded_names s path = Some names ->
  let r := on_library_management_file_test h s in
  r.1 = Ret RData
  /\ st_data r.2
     = (if decide (names ≡ₚ subtitles_on_disk path files)
        then st_data s
        else <[flag := VBool true]> (st_data s)).
Proof.
  intros Hpath Hext Hdir Hrec r.
  subst r. unfold on_library_management_file_test. run_monad.
  rewrite Hpath; cbn. rewrite Hext; cbn.
  match goal with
  | |- context [subs_already_synced h path ?s0] =>
      destruct (subs_already_synced_result h path s0 files names Hdir)
        as [lg Hres]; [exact Hrec|]; rewrite Hres
  end.
  case_bool_decide; cbn.
  - rewrite decide_True by done. done.
  - rewrite decide_False by done. done.
Qed.

(** C1: for a path whose extension is [.mp4] in any case, the inclusion
    test sets [add_file_to_pending_tasks] to true exactly when the
    subtitle names found in its directory and the names in its persisted
    entry differ as multisets; when they agree the mapping is returned as
    it was. *)
Theorem C1_inclusion_iff_multisets_differ (h : host) (s : state)
    (path : string) (files names : list string) :
  st_data s !! "path" = Some (VStr path) ->
  Str.lower (snd (splitext path)) = ".mp4" ->
  listdir h (dirname path) = Some files ->
  recorded_names s path = Some names ->
  let r := on_library_management_file_test h s in
  r.1 = Ret RData
  /\ st_data r.2
     = (if decide (names ≡ₚ subtitles_on_disk path files)
        then st_data s
        else <[flag := VBool true]> (st_data s))
  /\ (st_data s !! flag <> Some (VBool true) ->
      st_data r.2 !! flag = Some (VBool true)
      <-> ¬ names ≡ₚ subtitles_on_disk path files).
Proof.
  intros Hpath Hext Hdir Hrec r.
  destruct (inclusion_test_mp4 h s path files names Hpath Hext Hdir Hrec)
    as [Hret Hdata].
  split; [exact Hret|]. split; [exact Hdata|].
  intros Hunset. subst r. rewrite Hdata. case_decide.
  - split; [by intros ?|by intros ?].
  - split; [by intros _|]. intros _. apply lookup_insert_eq.
Qed.

(** C1 at a directory with one new subtitle and no record. *)
Lemma C1_witness :
  let h := mkHost (fun _ => Some ["movie.mp4"; "movie.SRT"]) (fun _ => true) in
  let s := mkState {[ "path" := VStr "/media/movie.mp4" ]} ∅ [] [] in
  (on_library_management_file_test h s).1 = Ret RData
  /\ st_data (on_library_management_file_test h s).2 !! flag
     = Some (VBool true).
Proof.
  intros h s.
  destruct (C1_inclusion_iff_multisets_differ h s "/media/movie.mp4"
              ["movie.mp4"; "movie.SRT"] [])
    as (Hret & Hdata & _); [reflexivity..|].
  split; [exact Hret|]. rewrite Hdata. vm_compute. reflexivity.
Defined.

(** C9: an [.mp4] path with no persisted entry (the lookup raises, or the
    host hands back [None]) and no matching subtitle in its directory is
    reported as already synced, and the inclusion test returns the mapping
    as it was: a video without subtitles is never queued. *)
Theorem C9_subtitle_less_video_is_synced (h : host) (s : state)
    (path : string) (files : list string) :
  st_data s !! "path" = Some (VStr path) ->
  Str.lower (snd (splitext path)) = ".mp4" ->
  listdir h (dirname path) = Some files ->
  subtitles_on_disk path files = [] ->
  persisted_entry s path = None \/ persisted_entry s path = Some VNone ->
  (subs_already_synced h path s).1 = Ret true
  /\ (on_library_management_file_test h s).1 = Ret RData
  /\ st_data (on_library_management_file_test h s).2 = st_data s.
Proof.
  intros Hpath Hext Hdir Hnone Hentry.
  assert (Hrec : recorded_names s path = Some []).
  { unfold recorded_names. by destruct Hentry as [-> | ->]. }
  split.
  - destruct (subs_already_synced_result h path s files [] Hdir Hrec)
      as [lg ->].
    cbn. rewrite Hnone. by rewrite bool_decide_eq_true_2.
  - destruct (inclusion_test_mp4 h s path files [] Hpath Hext Hdir Hrec)
      as [Hret Hdata].
    split; [exact Hret|]. rewrite Hdata, Hnone. by rewrite decide_True.
Qed.

(** C9 at a directory that holds only the video. *)
Lemma C9_witness :
  let h := mkHost (fun _ => Some ["movie.mp4"; ".unmanic"]) (fun _ => true) in
  let s := mkState {[ "path" := VStr "/media/movie.mp4" ]} ∅ [] [] in
  (subs_already_synced h "/media/movie.mp4" s).1 = Ret true
  /\ (on_library_management_file_test h s).1 = Ret RData
  /\ st_data (on_library_management_file_test h s).2 = st_data s.
Proof.
  intros h s.
  apply (C9_subtitle_less_video_is_synced h s "/media/movie.mp4"
           ["movie.mp4"; ".unmanic"]);
    [reflexivity | reflexivity | reflexivity | reflexivity | left; reflexivity].
Defined.

(** ** The command builder *)

Lemma defaults_original_file_path (data : gmap string value) :
  defaults data !! "original_file_path" = data !! "original_file_path".
Proof. unfold defaults. by rewrite !lookup_insert_ne. Qed.

(** A loop whose body only logs computes a left fold. *)
Lemma fold_each_pure {A B : Type} (body : B -> A -> M B) (f : B -> A -> B)
    (g : A -> log_record) :
  (forall acc x s,
     body acc x s
     = (Ret (f acc x),
        mkState (st_data s) (st_store s) (st_calls s)
                (st_log s ++ [g x])%list)) ->
  forall xs acc s,
    fold_each body acc xs s
    = (Ret (foldl f acc xs),
       mkState (st_data s) (st_store s) (st_calls s)
               (st_log s ++ map g xs)%list).
Proof.
  intros Hbody xs. induction xs as [|x xs IH]; intros acc s; cbn.
  - rewrite app_nil_r. by destruct s.
  - unfold mbind, M_bind. rewrite Hbody, IH. cbn. by rewrite <- app_assoc.
Qed.

(** The builder when the probe fails: the warning is logged, and the
    [format] call on what [logger.warning] returned raises. *)
Lemma worker_probe_failed (h : host) (s : state) :
  probe_file h (default VNone (st_data s !! "original_file_path")) = false ->
  on_worker_process h s
  = (Raise AttributeError,
     mkState (defaults (st_data s)) (st_store s) (st_calls s)
             (st_log s ++ [mkLog WARNING "Failed probed for file {}" []])%list).
Proof.
  intros Hprobe. unfold on_worker_process. run_monad.
  fold (defaults (st_data s)). rewrite defaults_original_file_path.
  rewrite Hprobe. reflexivity.
Qed.

(** The builder when the probe succeeds and the directory can be listed. *)
Lemma worker_probed (h : host) (s : state) (path : string)
    (files : list string) :
  default VNone (st_data s !! "original_file_path") = VStr path ->
  probe_file h (VStr path) = true ->
  listdir h (dirname path) = Some files ->
  let srtfiles := subtitle_candidates path files in
  (on_worker_process h s).1 = Ret RData
  /\ st_data (on_worker_process h s).2
     = match srtfiles with
       | [] => defaults (st_data s)
       | _ =>
           <["command_progress_parser" :=
               VCallable "parser.parse_progress" path]>
             (<["exec_command" :=
                  VList ["bash"; "-c"; longcommand path srtfiles]]>
                (defaults (st_data s)))
       end.
Proof.
  intros Hpath Hprobe Hdir srtfiles.
  unfold on_worker_process. run_monad.
  fold (defaults (st_data s)). rewrite defaults_original_file_path.
  rewrite Hpath, Hprobe. cbn. rewrite Hdir. cbn.
  rewrite collect_filter. fold (subtitle_candidates path files).
  fold srtfiles. destruct srtfiles as [|srt srts] eqn:Hsrt; [done|].
  cbn [length Nat.ltb Nat.leb]. cbn iota.
  rewrite (fold_each_pure _
             (fun acc srt => acc ++ sync_segment path srt)
             (fun srt => mkLog DEBUG "Adding command for {} and {}"
                               [LArg (VStr path); LArg (VStr srt)]))
    by reflexivity.
  cbn. rewrite lookup_insert_eq. cbn. done.
Qed.

(** Every run of the builder ends, returning or raising, with the mapping
    at its defaults, or armed for a probed path that has candidates. *)
Lemma worker_data_cases (h : host) (s : state) :
  let r := on_worker_process h s in
  st_data r.2 = defaults (st_data s)
  \/ exists path files,
       default VNone (st_data s !! "original_file_path") = VStr path
       /\ probe_file h (VStr path) = true
       /\ listdir h (dirname path) = Some files
       /\ subtitle_candidates path files <> []
       /\ r.1 = Ret RData
       /\ st_data r.2
          = <["command_progress_parser" :=
                VCallable "parser.parse_progress" path]>
              (<["exec_command" :=
                   VList ["bash"; "-c";
                          longcommand path (subtitle_candidates path files)]]>
                 (defaults (st_data s))).
Proof.
  intros r.
  destruct (probe_file h (default VNone (st_data s !! "original_file_path")))
    eqn:Hprobe.
  - destruct (default VNone (st_data s !! "original_file_path"))
      as [| | |path| |] eqn:Hpath;
      try (left; subst r; unfold on_worker_process; run_monad;
           fold (defaults (st_data s)); rewrite defaults_original_file_path;
           rewrite Hpath, Hprobe; reflexivity).
    destruct (listdir h (dirname path)) as [files|] eqn:Hdir.
    + destruct (worker_probed h s path files Hpath Hprobe Hdir) as [Hret Hdata].
      destruct (subtitle_candidates path files) as [|srt srts] eqn:Hsrt.
      * left. exact Hdata.
      * right. exists path, files. rewrite Hsrt. by repeat split.
    + left. subst r. unfold on_worker_process. run_monad.
      fold (defaults (st_data s)). rewrite defaults_original_file_path.
      rewrite Hpath, Hprobe. cbn. rewrite Hdir. reflexivity.
  - left. subst r. by rewrite worker_probe_failed.
Qed.

(** C2 (the code departs from it): when the media probe fails the builder
    logs its warning and leaves the command empty, but it does not halt
    gracefully: the [format] call applied to the [None] that
    [logger.warning] returned raises [AttributeError], which reaches the
    host. *)
Theorem C2_probe_failure_raises (h : host) (s : state) :
  probe_file h (default VNone (st_data s !! "original_file_path")) = false ->
  let r := on_worker_process h s in
  r.1 = Raise AttributeError
  /\ st_data r.2 !! "exec_command" = Some (VList [])
  /\ st_log r.2
     = (st_log s ++ [mkLog WARNING "Failed probed for file {}" []])%list.
Proof.
  intros Hprobe r. subst r. rewrite worker_probe_failed by exact Hprobe.
  cbn. split; [reflexivity|]. split; [|reflexivity].
  unfold defaults. rewrite lookup_insert_ne by done. apply lookup_insert_eq.
Qed.

(** C2 at a file the probe rejects. *)
Lemma C2_witness :
  let h := mkHost (fun _ => Some ["movie.mp4"; "movie.srt"]) (fun _ => false) in
  let s := mkState {[ "original_file_path" := VStr "/media/movie.mp4" ]}
                   ∅ [] [] in
  (on_worker_process h s).1 = Raise AttributeError.
Proof.
  intros h s.
  exact (proj1 (C2_probe_failure_raises h s eq_refl)).
Defined.

(** C8: the builder starts by setting the command to the empty list and
    [repeat] to false, so that in every outcome [repeat] is false and the
    command is empty unless it was armed for found candidates; and when
    the directory holds no file with extension exactly [.srt] whose name
    contains the media file's name, the mapping ends at those defaults and,
    the probe having succeeded, the builder returns it. *)
Theorem C8_defaults_then_no_subtitles_no_command (h : host) (s : state) :
  let r := on_worker_process h s in
  st_data r.2 !! "repeat" = Some (VBool false)
  /\ (st_data r.2 !! "exec_command" = Some (VList [])
      \/ exists path files,
           subtitle_candidates path files <> []
           /\ st_data r.2 !! "exec_command"
              = Some (VList ["bash"; "-c";
                       longcommand path (subtitle_candidates path files)]))
  /\ forall path files,
       default VNone (st_data s !! "original_file_path") = VStr path ->
       listdir h (dirname path) = Some files ->
       subtitle_candidates path files = [] ->
       st_data r.2 = defaults (st_data s)
       /\ st_data r.2 !! "exec_command" = Some (VList [])
       /\ st_data r.2 !! "command_progress_parser"
          = st_data s !! "command_progress_parser"
       /\ (probe_file h (VStr path) = true -> r.1 = Ret RData).
Proof.
  intros r.
  assert (Hexec : forall d : gmap string value,
            defaults d !! "exec_command" = Some (VList [])).
  { intros d. unfold defaults. rewrite lookup_insert_ne by done.
    apply lookup_insert_eq. }
  assert (Hrep : forall d : gmap string value,
            defaults d !! "repeat" = Some (VBool false)).
  { intros d. unfold defaults. apply lookup_insert_eq. }
  pose proof (worker_data_cases h s) as Hcases. fold r in Hcases.
  split; [|split].
  - destruct Hcases as [-> | (p & fs & _ & _ & _ & _ & _ & ->)].
    + apply Hrep.
    + rewrite !lookup_insert_ne by done. apply Hrep.
  - destruct Hcases as [-> | (p & fs & _ & _ & _ & Hne & _ & ->)].
    + left. apply Hexec.
    + right. exists p, fs. split; [exact Hne|].
      rewrite lookup_insert_ne by done. apply lookup_insert_eq.
  - intros path files Hpath Hdir Hnone.
    assert (Hdata : st_data r.2 = defaults (st_data s)).
    { destruct Hcases as [Hd | (p & fs & Hp & _ & Hd & Hne & _ & _)];
        [exact Hd|].
      rewrite Hpath in Hp. injection Hp as <-.
      rewrite Hdir in Hd. injection Hd as <-. by destruct Hne. }
    split; [exact Hdata|]. rewrite Hdata.
    split; [apply Hexec|]. split.
    + unfold defaults. by rewrite !lookup_insert_ne.
    + intros Hprobe.
      destruct (worker_probed h s path files Hpath Hprobe Hdir) as [Hret _].
      exact Hret.
Qed.

(** C8 at a directory whose only subtitle has an upper-case extension. *)
Lemma C8_witness :
  let h := mkHost (fun _ => Some ["movie.mp4"; "movie.SRT"]) (fun _ => true) in
  let s := mkState {[ "original_file_path" := VStr "/media/movie.mp4";
                      "exec_command" := VList ["rm"] ]} ∅ [] [] in
  (on_worker_process h s).1 = Ret RData
  /\ st_data (on_worker_process h s).2 !! "exec_command" = Some (VList []).
Proof.
  intros h s.
  destruct (C8_defaults_then_no_subtitles_no_command h s) as (_ & _ & Hno).
  destruct (Hno "/media/movie.mp4" ["movie.mp4"; "movie.SRT"])
    as (_ & Hexec & _ & Hret); [reflexivity..|].
  split; [apply Hret; reflexivity | exact Hexec].
Defined.

(** ** The completion recorder *)

Lemma record_destination_run (h : host) (d : string) (s : state) :
  exists lg,
    record_destination h d s
    = match record_target h d with
      | Some (directory, key, v) =>
          (Ret tt,
           mkState (st_data s) (store_write directory key v (st_store s))
                   (st_calls s ++ [CSet directory key.1 key.2 v;
                                   CSave directory])%list
                   (st_log s ++ lg)%list)
      | None =>
          (Raise OSError,
           mkState (st_data s) (st_store s) (st_calls s) (st_log s ++ lg)%list)
      end.
Proof.
  unfold record_destination, record_target. run_monad.
  destruct (listdir h (dirname d)) as [files|]; cbn.
  - rewrite collect_filter. fold (subtitle_candidates d files).
    rewrite <- !app_assoc. cbn. eexists. reflexivity.
  - rewrite <- !app_assoc. cbn. eexists. reflexivity.
Qed.

Lemma recorder_loop_run (h : host) (ds : list string) (s : state) :
  let r := for_each ds (record_destination h) s in
  st_data r.2 = st_data s
  /\ st_store r.2 = store_after h ds (st_store s)
  /\ st_calls r.2 = (st_calls s ++ calls_of h ds)%list
  /\ r.1 = (if bool_decide (processed h ds = ds) then Ret tt
            else Raise OSError).
Proof.
  revert s. induction ds as [|d ds IH]; intros s; cbn.
  - unfold calls_of. cbn. by rewrite app_nil_r.
  - unfold mbind, M_bind.
    destruct (record_destination_run h d s) as [lg ->].
    unfold calls_of. cbn.
    destruct (record_target h d) as [[[directory key] v]|] eqn:Ht.
    + match goal with
      | |- context [for_each ds _ ?s0] =>
          specialize (IH s0); cbn in IH;
          destruct (for_each ds (record_destination h) s0) as [o s1]
      end.
      cbn in IH. destruct IH as (Hd & Hs & Hc & Ho).
      assert (Hsame : bool_decide (d :: processed h ds = d :: ds)
                      = bool_decide (processed h ds = ds)).
      { apply bool_decide_ext. split; congruence. }
      destruct o; cbn; rewrite ?Hd, ?Hs, ?Hc, ?Hsame, <- ?Ho, ?Ht;
        unfold calls_of; rewrite <- ?app_assoc; done.
    + cbn. rewrite app_nil_r. by rewrite bool_decide_eq_false_2.
Qed.

(** The recorder on a successful task whose destinations can be
    iterated. *)
Lemma recorder_success (h : host) (s : state) (ds : list string) :
  truthy (default VNone (st_data s !! "task_processing_success")) = true ->
  iterate (default VNone (st_data s !! "destination_files")) s = (Ret ds, s) ->
  let r := on_postprocessor_task_results h s in
  st_data r.2 = st_data s
  /\ st_store r.2 = store_after h ds (st_store s)
  /\ st_calls r.2 = (st_calls s ++ calls_of h ds)%list
  /\ r.1 = (if bool_decide (processed h ds = ds) then Ret RData
            else Raise OSError).
Proof.
  intros Hok Hit. unfold on_postprocessor_task_results. run_monad.
  rewrite Hok. cbn. rewrite Hit.
  pose proof (recorder_loop_run h ds s) as (Hd & Hs & Hc & Ho).
  destruct (for_each ds (record_destination h) s) as [o s1]. cbn in *.
  rewrite Ho. by case_bool_decide.
Qed.

Lemma recorder_failed (h : host) (s : state) :
  truthy (default VNone (st_data s !! "task_processing_success")) = false ->
  on_postprocessor_task_results h s = (Ret RData, s).
Proof.
  intros Hfail. unfold on_postprocessor_task_results. run_monad.
  by rewrite Hfail.
Qed.

(** C5: when the task's success flag is false (or anything falsy), the
    recorder does nothing: it returns the mapping it was given, and the
    mapping, the persisted records, the record calls and the log are all
    as before. *)
Theorem C5_failed_task_records_nothing (h : host) (s : state) :
  truthy (default VNone (st_data s !! "task_processing_success")) = false ->
  on_postprocessor_task_results h s = (Ret RData, s).
Proof. apply recorder_failed. Qed.

(** C5 at a failed task with a destination and a subtitle on disk. *)
Lemma C5_witness :
  let h := mkHost (fun _ => Some ["movie.mp4"; "movie.srt"]) (fun _ => true) in
  let s := mkState {[ "task_processing_success" := VBool false;
                      "destination_files" := VList ["/media/movie.mp4"] ]}
                   ∅ [] [] in
  on_postprocessor_task_results h s = (Ret RData, s).
Proof.
  intros h s. apply (C5_failed_task_records_nothing h s). reflexivity.
Defined.

(** *** Running the recorder again *)

(** The value written for a destination is determined by where it is
    written. *)
Lemma record_target_functional (h : host) (d d' : string)
    (directory : string) (key : string * string) (v v' : value) :
  record_target h d = Some (directory, key, v) ->
  record_target h d' = Some (directory, key, v') ->
  v = v'.
Proof.
  unfold record_target. intros Hd Hd'.
  destruct (listdir h (dirname d)) as [files|] eqn:Hl; [|done].
  destruct (listdir h (dirname d')) as [files'|] eqn:Hl'; [|done].
  simplify_eq.
  match goal with
  | Hdir : dirname d = dirname d', Hbase : basename d = basename d' |- _ =>
      rewrite Hdir, Hl' in Hl; injection Hl as ->;
      unfold subtitle_candidates, is_sub_of; by rewrite Hbase
  end.
Qed.

Lemma store_write_holds (h : host) (d : string)
    (directory : string) (key : string * string) (v : value)
    (store : gmap string (gmap (string * string) value)) :
  record_target h d = Some (directory, key, v) ->
  entry_holds h d (store_write directory key v store).
Proof.
  intros Ht. unfold entry_holds. rewrite Ht.
  unfold store_write, DirInfo.save, DirInfo.set.
  eexists. rewrite lookup_insert_eq. split; [reflexivity|].
  destruct key. apply lookup_insert_eq.
Qed.

Lemma store_write_preserves (h : host) (d d' : string)
    (directory : string) (key : string * string) (v : value)
    (store : gmap string (gmap (string * string) value)) :
  record_target h d' = Some (directory, key, v) ->
  entry_holds h d store ->
  entry_holds h d (store_write directory key v store).
Proof.
  intros Ht'. unfold entry_holds.
  destruct (record_target h d) as [[[dir0 key0] v0]|] eqn:Ht; [|done].
  intros (m & Hm & Hv).
  unfold store_write, DirInfo.save, DirInfo.set, DirInfo.load.
  destruct (decide (directory = dir0)) as [->|Hne].
  - rewrite Hm. cbn. eexists. rewrite lookup_insert_eq.
    split; [reflexivity|]. destruct key as [sec opt]. cbn.
    destruct (decide ((sec, opt) = key0)) as [<-|Hk].
    + rewrite lookup_insert_eq. f_equal.
      exact (record_target_functional h d' d _ _ _ _ Ht' Ht).
    + by rewrite lookup_insert_ne.
  - exists m. by rewrite lookup_insert_ne.
Qed.

Lemma store_write_id (directory : string) (key : string * string)
    (v : value) (store : gmap string (gmap (string * string) value))
    (m : gmap (string * string) value) :
  store !! directory = Some m -> m !! key = Some v ->
  store_write directory key v store = store.
Proof.
  intros Hm Hv. unfold store_write, DirInfo.save, DirInfo.set, DirInfo.load.
  rewrite Hm. cbn. destruct key. cbn.
  rewrite (insert_id m) by exact Hv. by apply insert_id.
Qed.

Lemma store_after_preserves (h : host) (d : string) (ds : list string)
    (store : gmap string (gmap (string * string) value)) :
  entry_holds h d store -> entry_holds h d (store_after h ds store).
Proof.
  revert store. induction ds as [|d' ds IH]; intros store Hd; cbn; [done|].
  destruct (record_target h d') as [[[directory key] v]|] eqn:Ht; [|done].
  apply IH. by eapply store_write_preserves.
Qed.

Lemma store_after_holds (h : host) (ds : list string)
    (store : gmap string (gmap (string * string) value)) :
  Forall (fun d => entry_holds h d (store_after h ds store)) (processed h ds).
Proof.
  revert store. induction ds as [|d ds IH]; intros store; cbn; [constructor|].
  destruct (record_target h d) as [[[directory key] v]|] eqn:Ht;
    [|constructor].
  constructor; [|apply IH].
  apply store_after_preserves. by eapply store_write_holds.
Qed.

Lemma store_after_fixed (h : host) (ds : list string)
    (store : gmap string (gmap (string * string) value)) :
  Forall (fun d => entry_holds h d store) (processed h ds) ->
  store_after h ds store = store.
Proof.
  induction ds as [|d ds IH]; cbn; [done|].
  destruct (record_target h d) as [[[directory key] v]|] eqn:Ht; [|done].
  intros Hall. apply Forall_cons in Hall as [Hd Hall].
  unfold entry_holds in Hd. rewrite Ht in Hd. destruct Hd as (m & Hm & Hv).
  rewrite (store_write_id _ _ _ _ m) by assumption. by apply IH.
Qed.

Lemma store_after_idempotent (h : host) (ds : list string)
    (store : gmap string (gmap (string * string) value)) :
  store_after h ds (store_after h ds store) = store_after h ds store.
Proof. apply store_after_fixed, store_after_holds. Qed.

Lemma iterate_pure (v : value) (s : state) :
  (exists ds, forall s', iterate v s' = (Ret ds, s'))
  \/ (forall s', iterate v s' = (Raise TypeError, s')).
Proof. destruct v; cbn; eauto. Qed.

(** C6: the recorder is idempotent.  With the destination list and the
    directory contents fixed, a second run after a first one leaves the
    persisted records exactly as the first run left them, and ends the
    same way. *)
Theorem C6_recorder_idempotent (h : host) (s : state) :
  let once := on_postprocessor_task_results h s in
  let twice := on_postprocessor_task_results h once.2 in
  st_store twice.2 = st_store once.2
  /\ st_data twice.2 = st_data s
  /\ twice.1 = once.1.
Proof.
  intros once twice.
  destruct (truthy (default VNone (st_data s !! "task_processing_success")))
    eqn:Hok.
  - destruct (iterate_pure (default VNone (st_data s !! "destination_files")) s)
      as [[ds Hit]|Hit].
    + destruct (recorder_success h s ds Hok (Hit s)) as (Hd & Hs & _ & Ho).
      fold once in Hd, Hs, Ho.
      assert (Hok1 : truthy (default VNone
                (st_data once.2 !! "task_processing_success")) = true)
        by (by rewrite Hd).
      assert (Hit1 : iterate (default VNone
                (st_data once.2 !! "destination_files")) once.2
                = (Ret ds, once.2)) by (rewrite Hd; apply Hit).
      destruct (recorder_success h once.2 ds Hok1 Hit1) as (Hd' & Hs' & _ & Ho').
      fold twice in Hd', Hs', Ho'.
      rewrite Hs', Hs, Hd', Hd, Ho', Ho.
      by rewrite store_after_idempotent.
    + assert (Hrun : forall s0, st_data s0 = st_data s ->
                on_postprocessor_task_results h s0 = (Raise TypeError, s0)).
      { intros s0 Hs0. unfold on_postprocessor_task_results. run_monad.
        rewrite Hs0, Hok. cbn. rewrite Hs0. by rewrite Hit. }
      subst twice once. rewrite (Hrun s) by done. cbn.
      rewrite (Hrun s) by done. done.
  - subst twice once.
    rewrite (recorder_failed h s Hok). cbn.
    rewrite (recorder_failed h s Hok). done.
Qed.

(** ** Strings *)

Lemma string_app_cons (x : ascii) (a b : string) :
  String x a ++ b = String x (a ++ b).
Proof. reflexivity. Qed.

Lemma string_app_nil_l (b : string) : EmptyString ++ b = b.
Proof. reflexivity. Qed.

Lemma string_app_assoc (a b c : string) : (a ++ b) ++ c = a ++ (b ++ c).
Proof.
  induction a as [|x a IH]; [reflexivity|].
  rewrite !string_app_cons. by rewrite IH.
Qed.

Lemma string_app_nil_r (a : string) : a ++ EmptyString = a.
Proof.
  induction a as [|x a IH]; [reflexivity|].
  rewrite string_app_cons. by rewrite IH.
Qed.

Lemma string_app_length (a b : string) :
  String.length (a ++ b) = (String.length a + String.length b)%nat.
Proof.
  induction a as [|x a IH]; [reflexivity|].
  rewrite string_app_cons. cbn. by rewrite IH.
Qed.

Lemma take_app_length (a b : string) : Str.take (String.length a) (a ++ b) = a.
Proof.
  induction a as [|x a IH]; [by destruct b|].
  rewrite string_app_cons. cbn. by rewrite IH.
Qed.

(** [(x + "s;")[:-2]] is [x]. *)
Lemma slice_to_drops_two (x : string) : Str.slice_to (x ++ "s;") (-2) = x.
Proof.
  unfold Str.slice_to, Str.clamp, Str.len.
  rewrite string_app_length. cbn [String.length Z.ltb Z.compare].
  replace (Z.to_nat _) with (String.length x) by lia.
  apply take_app_length.
Qed.

Lemma sync_segment_body (abspath srt : string) :
  sync_segment abspath srt = sync_body abspath srt ++ "s;".
Proof.
  unfold sync_segment, sync_body. by rewrite !string_app_assoc.
Qed.

Lemma sync_invocation_body (abspath srt : string) :
  sync_invocation abspath srt = sync_body abspath srt ++ "s".
Proof.
  unfold sync_invocation, sync_body. by rewrite !string_app_assoc.
Qed.

Lemma foldl_segments (abspath : string) (srtfiles : list string)
    (acc : string) :
  foldl (fun acc srt => acc ++ sync_segment abspath srt) acc srtfiles
  = acc ++ sync_segments abspath srtfiles.
Proof.
  revert acc. induction srtfiles as [|srt srtfiles IH]; intros acc; cbn.
  - by rewrite string_app_nil_r.
  - by rewrite IH, string_app_assoc.
Qed.

Lemma sync_segments_app (abspath : string) (l k : list string) :
  sync_segments abspath (l ++ k)
  = sync_segments abspath l ++ sync_segments abspath k.
Proof.
  unfold sync_segments.
  induction l as [|x l IH]; cbn [foldr app]; [reflexivity|].
  by rewrite IH, string_app_assoc.
Qed.

(** The computed script: every segment but the last whole, and the last
    one short of its final two characters. *)
Lemma longcommand_snoc (abspath : string) (front : list string)
    (final : string) :
  longcommand abspath (front ++ [final])
  = sync_segments abspath front ++ sync_body abspath final.
Proof.
  unfold longcommand.
  rewrite foldl_segments, string_app_nil_l, sync_segments_app.
  cbn [sync_segments foldr].
  rewrite string_app_nil_r, sync_segment_body, <- string_app_assoc.
  apply slice_to_drops_two.
Qed.

(** The described script: the same segments, and the last invocation
    whole. *)
Lemma chained_invocations_snoc (abspath : string) (front : list string)
    (final : string) :
  chained_invocations abspath (front ++ [final])
  = sync_segments abspath front ++ sync_invocation abspath final.
Proof.
  unfold chained_invocations.
  induction front as [|x front IH]; cbn; [reflexivity|].
  cbn in IH. rewrite IH.
  destruct (map (sync_invocation abspath) (front ++ [final])) eqn:Hmap.
  - by destruct front.
  - rewrite sync_segment_body, sync_invocation_body.
    by rewrite !string_app_assoc.
Qed.

(** The command the builder arms for a probed path with candidates. *)
Lemma worker_armed (h : host) (s : state) (path : string)
    (files front : list string) (final : string) :
  default VNone (st_data s !! "original_file_path") = VStr path ->
  probe_file h (VStr path) = true ->
  listdir h (dirname path) = Some files ->
  subtitle_candidates path files = (front ++ [final])%list ->
  (on_worker_process h s).1 = Ret RData
  /\ st_data (on_worker_process h s).2 !! "exec_command"
     = Some (VList ["bash"; "-c";
                    sync_segments path front ++ sync_body path final]).
Proof.
  intros Hpath Hprobe Hdir Hsrt.
  destruct (worker_probed h s path files Hpath Hprobe Hdir) as [Hret Hdata].
  split; [exact Hret|]. rewrite Hdata, Hsrt.
  rewrite <- longcommand_snoc.
  destruct (front ++ [final])%list eqn:Hl; [by destruct front|].
  rewrite lookup_insert_ne by done. apply lookup_insert_eq.
Qed.

(** C3 (the code departs from it): for a non-empty list of candidates the
    script holds one invocation per candidate, each but the last followed
    by the terminator, but the strip takes two characters, not one: the
    last invocation loses the final letter of its [--gss] flag along with
    the terminator, so the script is one character short of the described
    chain of whole invocations. *)
Theorem C3_strip_cuts_into_last_segment (h : host) (s : state)
    (path : string) (files front : list string) (final : string) :
  default VNone (st_data s !! "original_file_path") = VStr path ->
  probe_file h (VStr path) = true ->
  listdir h (dirname path) = Some files ->
  subtitle_candidates path files = (front ++ [final])%list ->
  exists script,
    st_data (on_worker_process h s).2 !! "exec_command"
    = Some (VList ["bash"; "-c"; script])
    /\ script = sync_segments path front ++ sync_body path final
    /\ script ++ "s" = chained_invocations path (front ++ [final])
    /\ script <> chained_invocations path (front ++ [final]).
Proof.
  intros Hpath Hprobe Hdir Hsrt.
  destruct (worker_armed h s path files front final Hpath Hprobe Hdir Hsrt)
    as [_ Hexec].
  eexists. split; [exact Hexec|]. split; [reflexivity|].
  assert (Heq : (sync_segments path front ++ sync_body path final) ++ "s"
                = chained_invocations path (front ++ [final])).
  { by rewrite chained_invocations_snoc, sync_invocation_body,
         string_app_assoc. }
  split; [exact Heq|].
  intros Hsame. rewrite <- Heq in Hsame.
  apply (f_equal String.length) in Hsame.
  rewrite !string_app_length in Hsame.
  change (String.length "s") with 1%nat in Hsame. lia.
Qed.

(** C3 at a directory with two subtitles: the second invocation ends in
    [--gs]. *)
Lemma C3_witness :
  let h := mkHost (fun _ => Some ["movie.mp4"; "movie.en.srt"; "movie.fr.srt"])
                  (fun _ => true) in
  let s := mkState {[ "original_file_path" := VStr "/media/movie.mp4" ]}
                   ∅ [] [] in
  st_data (on_worker_process h s).2 !! "exec_command"
  = Some (VList ["bash"; "-c";
      "ffsubsync /media/movie.mp4 -i /media/movie.en.srt -o /media/movie.en.srt --gss;ffsubsync /media/movie.mp4 -i /media/movie.fr.srt -o /media/movie.fr.srt --gs"]).
Proof.
  intros h s.
  destruct (C3_strip_cuts_into_last_segment h s "/media/movie.mp4"
              ["movie.mp4"; "movie.en.srt"; "movie.fr.srt"]
              ["movie.en.srt"] "movie.fr.srt")
    as (script & Hexec & -> & _); [reflexivity..|].
  exact Hexec.
Defined.

(** ** Reading the script as the shell does *)

Lemma run_app (lx : Sh.lexer) (a b : string) :
  Sh.run lx (a ++ b)
  = match Sh.run lx a with
    | Some lx' => Sh.run lx' b
    | None => None
    end.
Proof.
  revert lx. induction a as [|c a IH]; intros lx; [reflexivity|].
  rewrite string_app_cons. cbn [Sh.run].
  destruct (Sh.step lx c); [apply IH|reflexivity].
Qed.

(** A character [shlex] leaves alone means nothing to the shell. *)
Lemma safe_char_plain (c : ascii) :
  Shlex.safe_char c = true ->
  Sh.blank c = false /\ Ascii.eqb c ";"%char = false
  /\ Ascii.eqb c Shlex.squote = false /\ Ascii.eqb c Shlex.dquote = false
  /\ Sh.special c = false.
Proof.
  destruct c as [[] [] [] [] [] [] [] []]; vm_compute; intros H;
    try discriminate H; repeat split.
Qed.

Lemma step_safe (lx : Sh.lexer) (c : ascii) :
  Sh.lx_mode lx = Sh.Bare -> Shlex.safe_char c = true ->
  Sh.step lx c = Some (Sh.push c lx).
Proof.
  intros Hm Hs. unfold Sh.step. rewrite Hm.
  destruct (safe_char_plain c Hs) as (-> & -> & -> & -> & ->). reflexivity.
Qed.

Lemma run_safe (s w : string) (ws : list string) (cs : list (list string)) :
  Shlex.all_safe s = true ->
  Sh.run (Sh.mkLexer Sh.Bare (Some w) ws cs) s
  = Some (Sh.mkLexer Sh.Bare (Some (w ++ s)) ws cs).
Proof.
  revert w. induction s as [|c s IH]; intros w Hs; cbn [Sh.run].
  - by rewrite string_app_nil_r.
  - cbn [Shlex.all_safe] in Hs. apply andb_prop in Hs as [Hc Hs].
    rewrite step_safe by done. unfold Sh.push. cbn [Sh.lx_mode Sh.lx_word
      Sh.lx_words Sh.lx_cmds default from_option].
    rewrite IH by exact Hs.
    by rewrite string_app_assoc, string_app_cons, string_app_nil_l.
Qed.

(** The replacement of a single quote reads as a single quote. *)
Lemma run_escape (w rest : string) (ws : list string)
    (cs : list (list string)) :
  Sh.run (Sh.mkLexer Sh.InSingle (Some w) ws cs)
         (Shlex.squote_escape ++ rest)
  = Sh.run (Sh.mkLexer Sh.InSingle
              (Some (w ++ String Shlex.squote EmptyString)) ws cs) rest.
Proof. reflexivity. Qed.

(** Inside single quotes the escaped text reads back as the text. *)
Lemma run_single_quoted (s w rest : string) (ws : list string)
    (cs : list (list string)) :
  Sh.run (Sh.mkLexer Sh.InSingle (Some w) ws cs)
         (Str.replace_char Shlex.squote Shlex.squote_escape s ++ rest)
  = Sh.run (Sh.mkLexer Sh.InSingle (Some (w ++ s)) ws cs) rest.
Proof.
  revert w. induction s as [|c s IH]; intros w; cbn [Str.replace_char].
  - by rewrite string_app_nil_l, string_app_nil_r.
  - destruct (Ascii.eqb c Shlex.squote) eqn:Hc.
    + apply Ascii.eqb_eq in Hc. subst c.
      rewrite string_app_assoc, run_escape, IH.
      by rewrite string_app_assoc, string_app_cons, string_app_nil_l.
    + rewrite string_app_cons. cbn [Sh.run]. unfold Sh.step.
      cbn [Sh.lx_mode]. rewrite Hc. unfold Sh.push. cbn [Sh.lx_mode Sh.lx_word
        Sh.lx_words Sh.lx_cmds default from_option].
      rewrite IH.
      by rewrite string_app_assoc, string_app_cons, string_app_nil_l.
Qed.

(** A quoted argument reads back as one word: the argument. *)
Lemma run_quote (s rest : string) (ws : list string)
    (cs : list (list string)) :
  Sh.run (Sh.mkLexer Sh.Bare None ws cs) (Shlex.quote s ++ rest)
  = Sh.run (Sh.mkLexer Sh.Bare (Some s) ws cs) rest.
Proof.
  unfold Shlex.quote. destruct s as [|c s]; [reflexivity|].
  cbn [Str.is_empty]. destruct (Shlex.all_safe (String c s)) eqn:Hs.
  - rewrite run_app. cbn [Sh.run].
    cbn [Shlex.all_safe] in Hs. apply andb_prop in Hs as [Hc Hs].
    rewrite step_safe by done. unfold Sh.push. cbn [Sh.lx_mode Sh.lx_word
      Sh.lx_words Sh.lx_cmds default from_option].
    rewrite run_safe by exact Hs.
    by rewrite string_app_nil_l, string_app_cons, string_app_nil_l.
  - rewrite !string_app_cons, string_app_assoc. cbn [Sh.run].
    change (Sh.step (Sh.mkLexer Sh.Bare None ws cs) Shlex.squote)
      with (Some (Sh.mkLexer Sh.InSingle (Some EmptyString) ws cs)).
    cbv iota beta. rewrite run_single_quoted.
    rewrite string_app_cons, !string_app_nil_l. reflexivity.
Qed.

(** The fixed parts of a segment. *)
Lemma run_lit_command (cs : list (list string)) (rest : string) :
  Sh.run (Sh.mkLexer Sh.Bare None [] cs) ("ffsubsync " ++ rest)
  = Sh.run (Sh.mkLexer Sh.Bare None ["ffsubsync"] cs) rest.
Proof. reflexivity. Qed.

Lemma run_lit_input (w : string) (ws : list string)
    (cs : list (list string)) (rest : string) :
  Sh.run (Sh.mkLexer Sh.Bare (Some w) ws cs) (" -i " ++ rest)
  = Sh.run (Sh.mkLexer Sh.Bare None ((ws ++ [w]) ++ ["-i"])%list cs) rest.
Proof. reflexivity. Qed.

Lemma run_lit_output (w : string) (ws : list string)
    (cs : list (list string)) (rest : string) :
  Sh.run (Sh.mkLexer Sh.Bare (Some w) ws cs) (" -o " ++ rest)
  = Sh.run (Sh.mkLexer Sh.Bare None ((ws ++ [w]) ++ ["-o"])%list cs) rest.
Proof. reflexivity. Qed.

Lemma run_lit_flag (w : string) (ws : list string)
    (cs : list (list string)) (rest : string) :
  Sh.run (Sh.mkLexer Sh.Bare (Some w) ws cs) (" --gs" ++ rest)
  = Sh.run (Sh.mkLexer Sh.Bare (Some "--gs") (ws ++ [w])%list cs) rest.
Proof. reflexivity. Qed.

(** A segment short of its last two characters: six words read, the
    seventh, [--gs], under way. *)
Lemma run_body (abspath srt rest : string) (cs : list (list string)) :
  Sh.run (Sh.mkLexer Sh.Bare None [] cs) (sync_body abspath srt ++ rest)
  = Sh.run (Sh.mkLexer Sh.Bare (Some "--gs")
              ["ffsubsync"; abspath; "-i"; join (dirname abspath) srt;
               "-o"; join (dirname abspath) srt] cs) rest.
Proof.
  unfold sync_body. rewrite !string_app_assoc.
  rewrite run_lit_command, run_quote, run_lit_input, run_quote,
    run_lit_output, run_quote, run_lit_flag.
  reflexivity.
Qed.

(** A whole segment is one command of seven words. *)
Lemma run_segment (abspath srt rest : string) (cs : list (list string)) :
  Sh.run (Sh.mkLexer Sh.Bare None [] cs) (sync_segment abspath srt ++ rest)
  = Sh.run (Sh.mkLexer Sh.Bare None []
              (cs ++ [sync_words "--gss" abspath srt])%list) rest.
Proof.
  rewrite sync_segment_body, string_app_assoc, run_body. reflexivity.
Qed.

Lemma run_segments (abspath : string) (srtfiles : list string)
    (rest : string) (cs : list (list string)) :
  Sh.run (Sh.mkLexer Sh.Bare None [] cs)
         (sync_segments abspath srtfiles ++ rest)
  = Sh.run (Sh.mkLexer Sh.Bare None []
              (cs ++ map (sync_words "--gss" abspath) srtfiles)%list) rest.
Proof.
  revert cs. unfold sync_segments.
  induction srtfiles as [|srt srtfiles IH]; intros cs; cbn [foldr map].
  - by rewrite string_app_nil_l, app_nil_r.
  - rewrite string_app_assoc, run_segment, IH. by rewrite <- app_assoc.
Qed.

(** What the shell makes of the computed script. *)
Lemma commands_of_script (abspath : string) (front : list string)
    (final : string) :
  Sh.commands (sync_segments abspath front ++ sync_body abspath final)
  = Some (map (sync_words "--gss" abspath) front
          ++ [sync_words "--gs" abspath final])%list.
Proof.
  unfold Sh.commands, Sh.init.
  rewrite <- (string_app_nil_r (sync_body abspath final)).
  rewrite run_segments, run_body. reflexivity.
Qed.

(** C7: every path put into the script is shell-escaped on its own: read
    the way the shell reads it, the script is one command per candidate
    whose words are [ffsubsync], the media path, [-i], the subtitle path,
    [-o], the subtitle path and the flag, each path coming back as exactly
    one word equal to the path itself, whatever blanks, quotes or other
    shell characters it contains. *)
Theorem C7_paths_are_shell_escaped (h : host) (s : state)
    (path : string) (files front : list string) (final : string) :
  default VNone (st_data s !! "original_file_path") = VStr path ->
  probe_file h (VStr path) = true ->
  listdir h (dirname path) = Some files ->
  subtitle_candidates path files = (front ++ [final])%list ->
  exists script,
    st_data (on_worker_process h s).2 !! "exec_command"
    = Some (VList ["bash"; "-c"; script])
    /\ script
       = Str.slice_to
           (sync_segments path (front ++ [final])) (-2)
    /\ Sh.commands script
       = Some (map (sync_words "--gss" path) front
               ++ [sync_words "--gs" path final])%list.
Proof.
  intros Hpath Hprobe Hdir Hsrt.
  destruct (worker_armed h s path files front final Hpath Hprobe Hdir Hsrt)
    as [_ Hexec].
  eexists. split; [exact Hexec|]. split.
  - rewrite <- longcommand_snoc. unfold longcommand.
    by rewrite foldl_segments, string_app_nil_l.
  - apply commands_of_script.
Qed.

(** C7 at a media path and a subtitle name with blanks and a quote. *)
Lemma C7_witness :
  let h := mkHost (fun _ => Some ["my movie.mp4"; "my movie it's.srt"])
                  (fun _ => true) in
  let s := mkState {[ "original_file_path" := VStr "/my media/my movie.mp4" ]}
                   ∅ [] [] in
  exists script,
    st_data (on_worker_process h s).2 !! "exec_command"
    = Some (VList ["bash"; "-c"; script])
    /\ Sh.commands script
       = Some [["ffsubsync"; "/my media/my movie.mp4";
                "-i"; "/my media/my movie it's.srt";
                "-o"; "/my media/my movie it's.srt"; "--gs"]].
Proof.
  intros h s.
  destruct (C7_paths_are_shell_escaped h s "/my media/my movie.mp4"
              ["my movie.mp4"; "my movie it's.srt"] [] "my movie it's.srt")
    as (script & Hexec & _ & Hcmds); [reflexivity..|].
  exists script. split; [exact Hexec | exact Hcmds].
Defined.

(** ** What the recorder writes *)

(** For one destination in a readable directory the recorder makes one
    [set] and one [save]: the key is the destination's base name as it
    is, the value the files with extension exactly [.srt] whose name
    contains the destination's name without extension. *)
Lemma recorder_single_destination (h : host) (s : state)
    (destination : string) (files : list string) :
  truthy (default VNone (st_data s !! "task_processing_success")) = true ->
  default VNone (st_data s !! "destination_files") = VList [destination] ->
  listdir h (dirname destination) = Some files ->
  let r := on_postprocessor_task_results h s in
  r.1 = Ret RData
  /\ st_calls r.2
     = (st_calls s
        ++ [CSet (dirname destination) "subs_synced" (basename destination)
                 (VList (subtitle_candidates destination files));
            CSave (dirname destination)])%list
  /\ (st_store r.2 !! dirname destination)
       ≫= (fun m => m !! ("subs_synced", basename destination))
     = Some (VList (subtitle_candidates destination files)).
Proof.
  intros Hok Hdest Hdir r.
  assert (Hit : iterate (default VNone (st_data s !! "destination_files")) s
                = (Ret [destination], s)) by (by rewrite Hdest).
  destruct (recorder_success h s [destination] Hok Hit) as (_ & Hs & Hc & Ho).
  fold r in Hs, Hc, Ho.
  assert (Ht : record_target h destination
               = Some (dirname destination,
                       ("subs_synced", basename destination),
                       VList (subtitle_candidates destination files))).
  { unfold record_target. by rewrite Hdir. }
  split; [|split].
  - rewrite Ho. cbn. rewrite Ht. by rewrite bool_decide_eq_true_2.
  - rewrite Hc. unfold calls_of. cbn. rewrite Ht. cbn. by rewrite Ht.
  - rewrite Hs. cbn. rewrite Ht.
    unfold store_write, DirInfo.save, DirInfo.set. cbn.
    rewrite lookup_insert_eq. cbn. apply lookup_insert_eq.
Qed.

(** The record file that [save] leaves in the directory is never taken
    for a subtitle. *)
Lemma record_file_is_no_subtitle (path : string) :
  is_sub_of path ".unmanic" = false
  /\ is_sub_of_nocase path ".unmanic" = false.
Proof. split; reflexivity. Qed.

(** C4 (the code departs from it): on success the recorder makes, for
    its destination, one [set] under section [subs_synced] followed by one
    [save], but the list it sets holds only the files whose extension is
    [.srt] exactly: a file of the directory that contains the
    destination's name and whose extension is [.srt] in another case is
    missing from it, although the inclusion test counts it, so the list
    set is not the multiset of subtitles the inclusion test finds. *)
Theorem C4_recorder_misses_other_case_extensions (h : host) (s : state)
    (destination : string) (files : list string) (file : string) :
  truthy (default VNone (st_data s !! "task_processing_success")) = true ->
  default VNone (st_data s !! "destination_files") = VList [destination] ->
  listdir h (dirname destination) = Some files ->
  file ∈ files ->
  is_sub_of_nocase destination file = true ->
  is_sub_of destination file = false ->
  let r := on_postprocessor_task_results h s in
  r.1 = Ret RData
  /\ exists recorded,
       st_calls r.2
       = (st_calls s
          ++ [CSet (dirname destination) "subs_synced"
                   (basename destination) (VList recorded);
              CSave (dirname destination)])%list
       /\ (file ∉ recorded)
       /\ file ∈ subtitles_on_disk destination files
       /\ ¬ (recorded ≡ₚ subtitles_on_disk destination files).
Proof.
  intros Hok Hdest Hdir Hin Hnocase Hexact r.
  destruct (recorder_single_destination h s destination files Hok Hdest Hdir)
    as (Hret & Hcalls & _).
  fold r in Hret, Hcalls. split; [exact Hret|].
  exists (subtitle_candidates destination files). split; [exact Hcalls|].
  assert (Hnot : file ∉ subtitle_candidates destination files).
  { unfold subtitle_candidates. intros Hc.
    apply list_elem_of_filter in Hc as [Hc _]. congruence. }
  assert (Hon : file ∈ subtitles_on_disk destination files).
  { unfold subtitles_on_disk. apply list_elem_of_filter. by split. }
  split; [exact Hnot|]. split; [exact Hon|].
  intros Hperm. apply Hnot. by rewrite Hperm.
Qed.

(** C4 at [/media/movie.mp4] next to [movie.en.SRT] and [movie.fr.srt]:
    the list set names [movie.fr.srt] alone. *)
Lemma C4_witness :
  let files := ["movie.mp4"; "movie.en.SRT"; "movie.fr.srt"] in
  let h := mkHost (fun d => if String.eqb d "/media" then Some files else None)
                  (fun _ => true) in
  let s := mkState {[ "task_processing_success" := VBool true;
                      "destination_files" := VList ["/media/movie.mp4"] ]}
                   ∅ [] [] in
  st_calls (on_postprocessor_task_results h s).2
  = [CSet "/media" "subs_synced" "movie.mp4" (VList ["movie.fr.srt"]);
     CSave "/media"]
  /\ subtitles_on_disk "/media/movie.mp4" files
     = ["movie.en.SRT"; "movie.fr.srt"].
Proof.
  intros files h s.
  destruct (C4_recorder_misses_other_case_extensions h s "/media/movie.mp4"
              files "movie.en.SRT")
    as (_ & recorded & Hcalls & _); [reflexivity | reflexivity | reflexivity
      | right; left | reflexivity | reflexivity |].
  split; [|reflexivity].
  rewrite Hcalls. vm_compute in Hcalls. injection Hcalls as Hrec.
  subst recorded. reflexivity.
Defined.

(** With every name in lower case but the extension, the key agrees and
    the recorded list still misses the subtitle: the file is queued after
    every successful pass. *)
Example recorder_upper_case_extension :
  let files := ["movie.mp4"; "movie.SRT"] in
  let h := mkHost (fun _ => Some files) (fun _ => true) in
  let s := mkState {[ "task_processing_success" := VBool true;
                      "destination_files" := VList ["/media/movie.mp4"] ]}
                   ∅ [] [] in
  let recorded := on_postprocessor_task_results h s in
  let retest :=
    on_library_management_file_test h
      (mkState {[ "path" := VStr "/media/movie.mp4" ]}
               (st_store recorded.2) [] []) in
  persisted_entry recorded.2 "/media/movie.mp4" = Some (VList [])
  /\ st_data retest.2 !! flag = Some (VBool true).
Proof. vm_compute. repeat split. Qed.

(** ** The scenarios of the specification *)

(** [movie.mp4] with [movie.srt] and no record: queued; one invocation
    (cut short by a letter); after success the record is [movie.srt] and
    the file is no longer queued. *)
Example scenario_single_subtitle :
  let h := mkHost (fun _ => Some ["movie.mp4"; "movie.srt"]) (fun _ => true) in
  let tested :=
    on_library_management_file_test h
      (mkState {[ "path" := VStr "/media/movie.mp4" ]} ∅ [] []) in
  let built :=
    on_worker_process h
      (mkState {[ "original_file_path" := VStr "/media/movie.mp4" ]} ∅ [] []) in
  let recorded :=
    on_postprocessor_task_results h
      (mkState {[ "task_processing_success" := VBool true;
                  "destination_files" := VList ["/media/movie.mp4"] ]}
               ∅ [] []) in
  let retested :=
    on_library_management_file_test h
      (mkState {[ "path" := VStr "/media/movie.mp4" ]}
               (st_store recorded.2) [] []) in
  st_data tested.2 !! flag = Some (VBool true)
  /\ st_data built.2 !! "exec_command"
     = Some (VList ["bash"; "-c";
         "ffsubsync /media/movie.mp4 -i /media/movie.srt -o /media/movie.srt --gs"])
  /\ persisted_entry recorded.2 "/media/movie.mp4"
     = Some (VList ["movie.srt"])
  /\ st_data retested.2 !! flag = None.
Proof. vm_compute. repeat split. Qed.

(** The first run of the recorder does change the records; the second
    does not. *)
Example recorder_twice :
  let h := mkHost (fun _ => Some ["movie.mp4"; "movie.srt"]) (fun _ => true) in
  let s := mkState {[ "task_processing_success" := VBool true;
                      "destination_files" :=
                        VList ["/media/movie.mp4"; "/media/movie.mp4"] ]}
                   ∅ [] [] in
  let once := on_postprocessor_task_results h s in
  let twice := on_postprocessor_task_results h once.2 in
  st_store once.2 <> st_store s
  /\ st_store twice.2 = st_store once.2
  /\ length (st_calls twice.2) = 8%nat.
Proof.
  split; [|split].
  - intros Heq. apply (f_equal (fun m => bool_decide (is_Some (m !! "/media"))))
      in Heq. vm_compute in Heq. discriminate Heq.
  - vm_compute. reflexivity.
  - vm_compute. reflexivity.
Qed.

(** * Further properties of the hooks *)

(** ** The inclusion test off its main path *)

(** X1: a path whose extension is not [.mp4] in any case is passed over:
    the mapping is returned as it was, the records are not read, and the
    directory is not even listed (it may be unreadable); one debug line is
    all that happens. *)
Theorem X1_other_extension_passed_over (h : host) (s : state)
    (path : string) :
  st_data s !! "path" = Some (VStr path) ->
  Str.lower (snd (splitext path)) <> ".mp4" ->
  on_library_management_file_test h s
  = (Ret RData,
     with_log (mkLog DEBUG "Looking at file extension {} from file {}"
                 [LArg (VStr (Str.lower (snd (splitext path))));
                  LArg (VStr path)]) s).
Proof.
  intros Hpath Hext. unfold on_library_management_file_test. run_monad.
  rewrite Hpath. cbn.
  apply String.eqb_neq in Hext. rewrite Hext. reflexivity.
Qed.

Lemma X1_witness :
  let h := mkHost (fun _ => None) (fun _ => true) in
  let s := mkState {[ "path" := VStr "/media/movie.mkv" ]} ∅ [] [] in
  (on_library_management_file_test h s).1 = Ret RData
  /\ st_data (on_library_management_file_test h s).2 = st_data s.
Proof.
  intros h s.
  rewrite (X1_other_extension_passed_over h s "/media/movie.mkv");
    [split; reflexivity | reflexivity | vm_compute; discriminate].
Defined.

(** X2: when the mapping has no [path], or holds under it [None], a
    boolean, an integer, a list or a callable (the values of this model
    that are not a string; [bytes] and path objects are outside it), the
    inclusion test raises [TypeError] before doing anything: the whole
    state, log included, is as it was. *)
Theorem X2_inclusion_test_needs_a_path (h : host) (s : state) :
  (forall p, default VNone (st_data s !! "path") <> VStr p) ->
  on_library_management_file_test h s = (Raise TypeError, s).
Proof.
  intros Hpath. unfold on_library_management_file_test. run_monad.
  destruct (default VNone (st_data s !! "path")) as [| | |p| |];
    try reflexivity.
  by destruct (Hpath p).
Qed.

Lemma X2_witness :
  let h := mkHost (fun _ => Some ["movie.mp4"]) (fun _ => true) in
  let s := mkState {[ "library_id" := VInt 1 ]} ∅ [] [] in
  on_library_management_file_test h s = (Raise TypeError, s).
Proof.
  intros h s. apply (X2_inclusion_test_needs_a_path h s).
  intros p. vm_compute. discriminate.
Defined.

(** X3: only the record lookup is guarded.  For an [.mp4] path whose
    directory cannot be listed, the [OSError] of [os.listdir] leaves the
    inclusion test, whatever the lookup gave; the mapping and the records
    are untouched. *)
Theorem X3_unlistable_directory_raises (h : host) (s : state)
    (path : string) :
  st_data s !! "path" = Some (VStr path) ->
  Str.lower (snd (splitext path)) = ".mp4" ->
  listdir h (dirname path) = None ->
  let r := on_library_management_file_test h s in
  r.1 = Raise OSError /\ st_data r.2 = st_data s
  /\ st_store r.2 = st_store s.
Proof.
  intros Hpath Hext Hdir r. subst r.
  unfold on_library_management_file_test, subs_already_synced. run_monad.
  rewrite Hpath. cbn. rewrite Hext. cbn.
  destruct (DirInfo.get _ _ _); cbn; rewrite Hdir; cbn; done.
Qed.

Lemma X3_witness :
  let h := mkHost (fun _ => None) (fun _ => true) in
  let s := mkState {[ "path" := VStr "/gone/movie.mp4" ]} ∅ [] [] in
  (on_library_management_file_test h s).1 = Raise OSError.
Proof.
  intros h s.
  exact (proj1 (X3_unlistable_directory_raises h s "/gone/movie.mp4"
                  eq_refl eq_refl eq_refl)).
Defined.

(** The answer of the already-synced test depends on the persisted
    records and the directory, not on the mapping or the log. *)
Lemma subs_already_synced_agree (h : host) (path : string) (s s' : state) :
  st_store s = st_store s' ->
  (subs_already_synced h path s).1 = (subs_already_synced h path s').1.
Proof.
  intros Hstore. unfold subs_already_synced. run_monad. rewrite Hstore.
  destruct (DirInfo.get _ _ _) as [v|e]; cbn;
    (destruct (listdir h (dirname path)); cbn; [|done]).
  - destruct v; cbn; try done; case_bool_decide; cbn; done.
  - case_bool_decide; cbn; done.
Qed.

Lemma inclusion_test_agree (h : host) (s s' : state) :
  st_store s = st_store s' ->
  st_data s !! "path" = st_data s' !! "path" ->
  let r := on_library_management_file_test h s in
  let r' := on_library_management_file_test h s' in
  r.1 = r'.1
  /\ ((st_data r.2 = st_data s /\ st_data r'.2 = st_data s')
      \/ (st_data r.2 = <[flag := VBool true]> (st_data s)
          /\ st_data r'.2 = <[flag := VBool true]> (st_data s'))).
Proof.
  intros Hstore Hpath. unfold on_library_management_file_test. run_monad.
  rewrite <- Hpath.
  destruct (default VNone (st_data s !! "path")); cbn; auto.
  destruct (String.eqb _ ".mp4"); cbn; auto.
  match goal with
  | |- context [subs_already_synced h ?p ?s0] =>
      match goal with
      | |- context [subs_already_synced h p ?s1] =>
          lazymatch s1 with
          | s0 => fail
          | _ =>
              pose proof (subs_already_synced_agree h p s0 s1 Hstore) as Ho;
              pose proof (subs_already_synced_frame h p s0) as (Hd & _ & _);
              pose proof (subs_already_synced_frame h p s1) as (Hd' & _ & _);
              destruct (subs_already_synced h p s0) as [o0 t0];
              destruct (subs_already_synced h p s1) as [o1 t1]
          end
      end
  end.
  cbn in *. subst o1. destruct o0 as [[]|e]; cbn; rewrite ?Hd, ?Hd'; auto.
Qed.

(** X4: the inclusion test is idempotent on the mapping: testing the
    mapping the first test left gives that mapping again, with the same
    outcome. *)
Theorem X4_inclusion_test_idempotent (h : host) (s : state) :
  let once := on_library_management_file_test h s in
  let twice := on_library_management_file_test h once.2 in
  st_data twice.2 = st_data once.2 /\ twice.1 = once.1.
Proof.
  intros once twice.
  pose proof (inclusion_test_data h s) as (Hd & Hs & _). fold once in Hd, Hs.
  assert (Hpath : st_data s !! "path" = st_data once.2 !! "path").
  { destruct Hd as [-> | ->]; [done|]. by rewrite lookup_insert_ne. }
  destruct (inclusion_test_agree h s once.2 (eq_sym Hs) Hpath) as [Ho Hcase].
  fold once twice in Ho, Hcase. split; [|done].
  destruct Hcase as [[_ H2] | [H1 H2]]; [exact H2|].
  rewrite H2, H1. apply insert_insert_eq.
Qed.

(** ** The command builder off its main path *)

(** The builder neither reads nor writes the persisted records. *)
Lemma worker_records_untouched (h : host) (s : state) :
  let r := on_worker_process h s in
  st_store r.2 = st_store s /\ st_calls r.2 = st_calls s.
Proof.
  unfold on_worker_process. run_monad.
  destruct (probe_file h _); cbn; [|done].
  destruct (default VNone _) as [| | |path| |]; cbn; try done.
  destruct (listdir h (dirname path)) as [files|]; cbn; [|done].
  destruct (collect (is_sub_of path) files) as [|srt srts]; [done|].
  cbn [length Nat.ltb Nat.leb]. cbn iota.
  rewrite (fold_each_pure _
             (fun acc srt => acc ++ sync_segment path srt)
             (fun srt => mkLog DEBUG "Adding command for {} and {}"
                               [LArg (VStr path); LArg (VStr srt)]))
    by reflexivity.
  cbn. rewrite lookup_insert_eq. cbn. done.
Qed.

(** X5: whatever the input and the outcome, the command builder changes
    no key of the mapping other than [exec_command], [repeat] and
    [command_progress_parser], and it leaves the persisted records
    alone. *)
Theorem X5_builder_touches_three_keys (h : host) (s : state) (k : string) :
  k <> "exec_command" -> k <> "repeat" -> k <> "command_progress_parser" ->
  let r := on_worker_process h s in
  st_data r.2 !! k = st_data s !! k
  /\ st_store r.2 = st_store s /\ st_calls r.2 = st_calls s.
Proof.
  intros Hk1 Hk2 Hk3 r.
  split; [|apply worker_records_untouched].
  pose proof (worker_data_cases h s) as Hcases. fold r in Hcases.
  destruct Hcases as [-> | (p & fs & _ & _ & _ & _ & _ & ->)];
    unfold defaults; by rewrite !lookup_insert_ne.
Qed.

Lemma X5_witness :
  let h := mkHost (fun _ => Some ["movie.mp4"; "movie.srt"]) (fun _ => true) in
  let s := mkState {[ "original_file_path" := VStr "/media/movie.mp4";
                      "file_out" := VStr "/tmp/out.mp4" ]} ∅ [] [] in
  st_data (on_worker_process h s).2 !! "file_out"
  = Some (VStr "/tmp/out.mp4").
Proof.
  intros h s.
  destruct (X5_builder_touches_three_keys h s "file_out") as [Hk _];
    [discriminate..|].
  rewrite Hk. reflexivity.
Defined.

Lemma defaults_overwrite (v1 v2 : value) (data : gmap string value) :
  defaults (<["repeat" := v2]> (<["exec_command" := v1]> data))
  = defaults data.
Proof.
  unfold defaults. apply map_eq. intros k.
  destruct (decide (k = "repeat")) as [->|Hrep];
    [by rewrite !lookup_insert_eq|].
  rewrite !(lookup_insert_ne _ "repeat") by done.
  destruct (decide (k = "exec_command")) as [->|Hexec];
    [by rewrite !lookup_insert_eq|].
  by rewrite !lookup_insert_ne.
Qed.

(** X6: a command or a repeat request left in the mapping by an earlier
    runner has no influence: the builder behaves exactly as it does on the
    mapping without them, in outcome, mapping and log. *)
Theorem X6_builder_ignores_stale_command (h : host) (s : state)
    (command again : value) :
  on_worker_process h (preset "exec_command" command "repeat" again s)
  = on_worker_process h s.
Proof.
  unfold on_worker_process, preset. run_monad.
  fold (defaults (<["repeat" := again]> (<["exec_command" := command]>
                                            (st_data s)))).
  fold (defaults (st_data s)).
  by rewrite defaults_overwrite.
Qed.

(** X7: when the probe accepts the file but its directory cannot be
    listed, the [OSError] leaves the builder; the mapping is at its
    defaults, so no command is armed, and nothing was logged. *)
Theorem X7_builder_unlistable_directory (h : host) (s : state)
    (path : string) :
  default VNone (st_data s !! "original_file_path") = VStr path ->
  probe_file h (VStr path) = true ->
  listdir h (dirname path) = None ->
  on_worker_process h s
  = (Raise OSError,
     mkState (defaults (st_data s)) (st_store s) (st_calls s) (st_log s)).
Proof.
  intros Hpath Hprobe Hdir. unfold on_worker_process. run_monad.
  fold (defaults (st_data s)). rewrite defaults_original_file_path.
  rewrite Hpath, Hprobe. cbn. rewrite Hdir. reflexivity.
Qed.

Lemma X7_witness :
  let h := mkHost (fun _ => None) (fun _ => true) in
  let s := mkState {[ "original_file_path" := VStr "/gone/movie.mp4" ]}
                   ∅ [] [] in
  (on_worker_process h s).1 = Raise OSError
  /\ st_data (on_worker_process h s).2 !! "exec_command" = Some (VList []).
Proof.
  intros h s.
  rewrite (X7_builder_unlistable_directory h s "/gone/movie.mp4");
    [split; reflexivity | reflexivity..].
Defined.

(** ** Which files count as subtitles *)

Lemma take_drop (n : nat) (s : string) : Str.take n s ++ Str.drop n s = s.
Proof.
  revert s. induction n as [|n IH]; intros s; [reflexivity|].
  destruct s as [|c s]; [reflexivity|].
  cbn [Str.take Str.drop]. rewrite string_app_cons. by rewrite IH.
Qed.

Lemma slice_to_zero (p : string) : Str.slice_to p 0 = EmptyString.
Proof.
  unfold Str.slice_to, Str.clamp, Str.len. cbn [Z.ltb Z.compare].
  replace (Z.to_nat _) with 0%nat by lia. reflexivity.
Qed.

(** [root + ext == p] for [root, ext = os.path.splitext(p)]. *)
Lemma splitext_concat (p : string) :
  fst (splitext p) ++ snd (splitext p) = p.
Proof.
  unfold splitext.
  destruct (_ <? _)%Z; cbn [fst snd];
    [|by rewrite slice_to_zero, string_app_nil_r].
  generalize (Z.to_nat (Str.rfind extsep p - (Str.rfind sep p + 1))).
  generalize (Str.rfind sep p + 1)%Z.
  intros i n. revert i. induction n as [|n IH]; intros i; cbn [splitext_scan].
  - cbn [fst snd]. by rewrite slice_to_zero, string_app_nil_r.
  - destruct (negb _); [|apply IH].
    cbn [fst snd]. apply take_drop.
Qed.

Lemma is_sub_of_nocase_of_exact (path file : string) :
  is_sub_of path file = true -> is_sub_of_nocase path file = true.
Proof.
  unfold is_sub_of, is_sub_of_nocase. intros H.
  apply andb_prop in H as [Hext Hin]. apply String.eqb_eq in Hext.
  rewrite Hext, Hin. reflexivity.
Qed.

(** X8: every candidate of the command builder and of the recorder is a
    subtitle the inclusion test counts too, in the same order; and a
    candidate is an entry of the directory whose name is some root
    followed by exactly [.srt] and contains the media file's name without
    its extension. *)
Theorem X8_candidates_are_counted_subtitles (path : string)
    (files : list string) :
  subtitle_candidates path files `sublist_of` subtitles_on_disk path files
  /\ forall file,
       file ∈ subtitle_candidates path files ->
       file ∈ files
       /\ (exists root, file = root ++ ".srt")
       /\ Str.contains (fst (splitext (basename path))) file = true.
Proof.
  unfold subtitle_candidates, subtitles_on_disk. split.
  - rewrite <- (list_filter_filter_l
                  (fun file => is_sub_of path file = true)
                  (fun file => is_sub_of_nocase path file = true))
      by apply is_sub_of_nocase_of_exact.
    apply sublist_filter.
  - intros file Hin. apply list_elem_of_filter in Hin as [Hsub Hin].
    split; [exact Hin|].
    unfold is_sub_of in Hsub. apply andb_prop in Hsub as [Hext Hstem].
    apply String.eqb_eq in Hext. split; [|exact Hstem].
    exists (fst (splitext file)). rewrite <- Hext. symmetry.
    apply splitext_concat.
Qed.

(** ** Quoting *)

(** X9: [shlex.quote] is undone by the shell: the quoted form of any
    string reads as one command of one word, the string itself; hence two
    different strings never have the same quoted form. *)
Theorem X9_quote_reads_back (s t : string) :
  Sh.commands (Shlex.quote s) = Some [[s]]
  /\ (Shlex.quote s = Shlex.quote t -> s = t).
Proof.
  assert (Hread : forall u, Sh.commands (Shlex.quote u) = Some [[u]]).
  { intros u. unfold Sh.commands, Sh.init.
    rewrite <- (string_app_nil_r (Shlex.quote u)), run_quote. reflexivity. }
  split; [apply Hread|].
  intros Heq. pose proof (Hread s) as Hs. rewrite Heq, Hread in Hs.
  by injection Hs.
Qed.

(** ** The completion recorder: what it writes and what it leaves *)

Lemma iterate_list (ds : list string) (s : state) :
  iterate (VList ds) s = (Ret ds, s).
Proof. reflexivity. Qed.

Lemma entry_holds_store_entry (h : host) (d : string) (files : list string)
    (store : gmap string (gmap (string * string) value)) :
  listdir h (dirname d) = Some files ->
  entry_holds h d store ->
  store_entry store (dirname d) ("subs_synced", basename d)
  = Some (VList (subtitle_candidates d files)).
Proof.
  unfold entry_holds, record_target, store_entry. intros ->.
  intros (m & -> & Hv). exact Hv.
Qed.

Lemma processed_all (h : host) (ds : list string) :
  Forall (listable h) ds -> processed h ds = ds.
Proof.
  induction 1 as [|d ds [files Hd] _ IH]; [reflexivity|].
  cbn. unfold record_target. rewrite Hd. by rewrite IH.
Qed.

Lemma processed_stop (h : host) (ds1 ds2 : list string) (d : string) :
  Forall (listable h) ds1 -> listdir h (dirname d) = None ->
  processed h (ds1 ++ d :: ds2) = ds1.
Proof.
  intros Hall Hd. induction Hall as [|d1 ds1 [files Hd1] _ IH]; cbn.
  - unfold record_target. by rewrite Hd.
  - unfold record_target at 1. rewrite Hd1. by rewrite IH.
Qed.

(** After a run on a successful task, every destination the loop got
    through has its entry in place. *)
Lemma recorder_entries (h : host) (s : state) (ds : list string)
    (d : string) (files : list string) :
  truthy (default VNone (st_data s !! "task_processing_success")) = true ->
  default VNone (st_data s !! "destination_files") = VList ds ->
  d ∈ processed h ds ->
  listdir h (dirname d) = Some files ->
  store_entry (st_store (on_postprocessor_task_results h s).2)
              (dirname d) ("subs_synced", basename d)
  = Some (VList (subtitle_candidates d files)).
Proof.
  intros Hok Hdest Hin Hdir.
  assert (Hit : iterate (default VNone (st_data s !! "destination_files")) s
                = (Ret ds, s)) by (by rewrite Hdest).
  destruct (recorder_success h s ds Hok Hit) as (_ & -> & _ & _).
  apply (entry_holds_store_entry h d files); [exact Hdir|].
  pose proof (store_after_holds h ds (st_store s)) as Hall.
  rewrite Forall_forall in Hall. by apply Hall.
Qed.

(** X10: the recorder never changes the mapping it is given, whatever the
    input, and it ends by returning that mapping or by raising
    [TypeError] (destinations that cannot be iterated) or [OSError] (a
    directory that cannot be listed). *)
Theorem X10_recorder_keeps_the_mapping (h : host) (s : state) :
  let r := on_postprocessor_task_results h s in
  st_data r.2 = st_data s
  /\ (r.1 = Ret RData \/ r.1 = Raise TypeError \/ r.1 = Raise OSError).
Proof.
  intros r.
  destruct (truthy (default VNone (st_data s !! "task_processing_success")))
    eqn:Hok.
  - destruct (iterate_pure (default VNone (st_data s !! "destination_files")) s)
      as [[ds Hit]|Hit].
    + destruct (recorder_success h s ds Hok (Hit s)) as (Hd & _ & _ & Ho).
      fold r in Hd, Ho. split; [exact Hd|]. rewrite Ho.
      case_bool_decide; auto.
    + subst r. unfold on_postprocessor_task_results. run_monad.
      rewrite Hok. cbn. rewrite Hit. cbn. auto.
  - subst r. rewrite (recorder_failed h s Hok). cbn. auto.
Qed.





(** X12: on a successful task whose destinations' directories can all be
    listed, the recorder returns the mapping and every destination, also
    one named twice or sharing its directory with others, ends with its
    entry holding the exact-case candidates of its directory. *)
Theorem X12_recorder_records_every_destination (h : host) (s : state)
    (ds : list string) :
  truthy (default VNone (st_data s !! "task_processing_success")) = true ->
  default VNone (st_data s !! "destination_files") = VList ds ->
  Forall (listable h) ds ->
  let r := on_postprocessor_task_results h s in
  r.1 = Ret RData
  /\ forall d files,
       d ∈ ds -> listdir h (dirname d) = Some files ->
       store_entry (st_store r.2) (dirname d) ("subs_synced", basename d)
       = Some (VList (subtitle_candidates d files)).
Proof.
  intros Hok Hdest Hall r. split.
  - assert (Hit : iterate (default VNone (st_data s !! "destination_files")) s
                  = (Ret ds, s)) by (by rewrite Hdest).
    destruct (recorder_success h s ds Hok Hit) as (_ & _ & _ & Ho).
    fold r in Ho. rewrite Ho, processed_all by exact Hall.
    by rewrite bool_decide_eq_true_2.
  - intros d files Hin Hdir. subst r.
    apply (recorder_entries h s ds d files Hok Hdest); [|exact Hdir].
    by rewrite processed_all.
Qed.

Lemma X12_witness :
  let h := mkHost (fun d => if String.eqb d "/tv" then Some ["a.mp4"; "a.srt"]
                            else Some ["b.mp4"; "b.en.srt"; "b.fr.srt"])
                  (fun _ => true) in
  let s := mkState {[ "task_processing_success" := VBool true;
                      "destination_files" :=
                        VList ["/tv/a.mp4"; "/film/b.mp4"; "/tv/a.mp4"] ]}
                   ∅ [] [] in
  (on_postprocessor_task_results h s).1 = Ret RData
  /\ store_entry (st_store (on_postprocessor_task_results h s).2)
                 "/film" ("subs_synced", "b.mp4")
     = Some (VList ["b.en.srt"; "b.fr.srt"]).
Proof.
  intros h s.
  destruct (X12_recorder_records_every_destination h s
              ["/tv/a.mp4"; "/film/b.mp4"; "/tv/a.mp4"])
    as [Hret Hentries]; [reflexivity | reflexivity | |].
  - repeat constructor; eexists; reflexivity.
  - split; [exact Hret|].
    apply (Hentries "/film/b.mp4" ["b.mp4"; "b.en.srt"; "b.fr.srt"]);
      [|reflexivity].
    right; left.
Defined.

(** X13: the loop is not atomic.  When the directory of one destination
    cannot be listed the recorder raises [OSError] there, and the entries
    of the destinations before it have already been set and saved. *)
Theorem X13_recorder_stops_at_unlistable (h : host) (s : state)
    (before after : list string) (d : string) :
  truthy (default VNone (st_data s !! "task_processing_success")) = true ->
  default VNone (st_data s !! "destination_files")
  = VList (before ++ d :: after) ->
  Forall (listable h) before ->
  listdir h (dirname d) = None ->
  let r := on_postprocessor_task_results h s in
  r.1 = Raise OSError
  /\ forall d' files,
       d' ∈ before -> listdir h (dirname d') = Some files ->
       store_entry (st_store r.2) (dirname d') ("subs_synced", basename d')
       = Some (VList (subtitle_candidates d' files)).
Proof.
  intros Hok Hdest Hall Hd r.
  pose proof (processed_stop h before after d Hall Hd) as Hproc. split.
  - assert (Hit : iterate (default VNone (st_data s !! "destination_files")) s
                  = (Ret (before ++ d :: after)%list, s)) by (by rewrite Hdest).
    destruct (recorder_success h s _ Hok Hit) as (_ & _ & _ & Ho).
    fold r in Ho. rewrite Ho, Hproc. rewrite bool_decide_eq_false_2; [done|].
    intros Heq. apply (f_equal length) in Heq.
    rewrite length_app in Heq. cbn in Heq. lia.
  - intros d' files Hin Hdir. subst r.
    apply (recorder_entries h s _ d' files Hok Hdest); [|exact Hdir].
    by rewrite Hproc.
Qed.

Lemma X13_witness :
  let h := mkHost (fun d => if String.eqb d "/tv" then Some ["a.mp4"; "a.srt"]
                            else None)
                  (fun _ => true) in
  let s := mkState {[ "task_processing_success" := VBool true;
                      "destination_files" :=
                        VList ["/tv/a.mp4"; "/gone/b.mp4"; "/tv/c.mp4"] ]}
                   ∅ [] [] in
  (on_postprocessor_task_results h s).1 = Raise OSError
  /\ store_entry (st_store (on_postprocessor_task_results h s).2)
                 "/tv" ("subs_synced", "a.mp4")
     = Some (VList ["a.srt"]).
Proof.
  intros h s.
  destruct (X13_recorder_stops_at_unlistable h s
              ["/tv/a.mp4"] ["/tv/c.mp4"] "/gone/b.mp4")
    as [Hret Hentries]; [reflexivity | reflexivity | | reflexivity |].
  - repeat constructor; eexists; reflexivity.
  - split; [exact Hret|].
    apply (Hentries "/tv/a.mp4" ["a.mp4"; "a.srt"]); [|reflexivity].
    left.
Defined.

(** X14: a successful task without a destination list (the key missing
    or [None]) makes the recorder raise [TypeError] when it starts the
    loop; nothing is written or logged. *)
Theorem X14_recorder_needs_destinations (h : host) (s : state) :
  truthy (default VNone (st_data s !! "task_processing_success")) = true ->
  default VNone (st_data s !! "destination_files") = VNone ->
  on_postprocessor_task_results h s = (Raise TypeError, s).
Proof.
  intros Hok Hdest. unfold on_postprocessor_task_results. run_monad.
  rewrite Hok. cbn. by rewrite Hdest.
Qed.

Lemma X14_witness :
  let h := mkHost (fun _ => Some ["movie.mp4"; "movie.srt"]) (fun _ => true) in
  let s := mkState {[ "task_processing_success" := VBool true ]} ∅ [] [] in
  on_postprocessor_task_results h s = (Raise TypeError, s).
Proof.
  intros h s.
  apply (X14_recorder_needs_destinations h s); reflexivity.
Defined.

(** X15: recording and testing compose.  After a successful run that
    recorded destination [d], an [.mp4] file whose base name is already
    lower case, the inclusion test on [d] against the same directory
    queues the file exactly when the exact-case candidates that were
    recorded and the any-case subtitles it finds differ as multisets; with
    every subtitle extension in lower case it returns the mapping
    untouched. *)
Theorem X15_recorded_file_is_retested (h : host) (s s' : state)
    (ds : list string) (d : string) (files : list string) :
  truthy (default VNone (st_data s !! "task_processing_success")) = true ->
  default VNone (st_data s !! "destination_files") = VList ds ->
  Forall (listable h) ds ->
  d ∈ ds ->
  listdir h (dirname d) = Some files ->
  Str.lower (snd (splitext d)) = ".mp4" ->
  Str.lower (basename d) = basename d ->
  st_store s' = st_store (on_postprocessor_task_results h s).2 ->
  st_data s' !! "path" = Some (VStr d) ->
  let r := on_library_management_file_test h s' in
  r.1 = Ret RData
  /\ st_data r.2
     = (if decide (subtitle_candidates d files ≡ₚ subtitles_on_disk d files)
        then st_data s'
        else <[flag := VBool true]> (st_data s'))
  /\ (subtitles_on_disk d files = subtitle_candidates d files ->
      st_data r.2 = st_data s').
Proof.
  intros Hok Hdest Hall Hin Hdir Hext Hlow Hstore Hpath r.
  assert (Hentry : persisted_entry s' d
                   = Some (VList (subtitle_candidates d files))).
  { unfold persisted_entry. rewrite Hlow, Hstore.
    apply (recorder_entries h s ds d files Hok Hdest); [|exact Hdir].
    by rewrite processed_all. }
  assert (Hrec : recorded_names s' d = Some (subtitle_candidates d files)).
  { unfold recorded_names. by rewrite Hentry. }
  destruct (inclusion_test_mp4 h s' d files _ Hpath Hext Hdir Hrec)
    as [Hret Hdata].
  fold r in Hret, Hdata. split; [exact Hret|]. split; [exact Hdata|].
  intros Hsame. rewrite Hdata, Hsame. by rewrite decide_True.
Qed.

Lemma X15_witness :
  let h := mkHost (fun _ => Some ["movie.mp4"; "movie.en.srt"; "movie.fr.srt"])
                  (fun _ => true) in
  let s := mkState {[ "task_processing_success" := VBool true;
                      "destination_files" := VList ["/media/movie.mp4"] ]}
                   ∅ [] [] in
  let s' := mkState {[ "path" := VStr "/media/movie.mp4" ]}
                    (st_store (on_postprocessor_task_results h s).2) [] [] in
  (on_library_management_file_test h s').1 = Ret RData
  /\ st_data (on_library_management_file_test h s').2 = st_data s'.
Proof.
  intros h s s'.
  destruct (X15_recorded_file_is_retested h s s' ["/media/movie.mp4"]
              "/media/movie.mp4" ["movie.mp4"; "movie.en.srt"; "movie.fr.srt"])
    as (Hret & _ & Hsame);
    [reflexivity | reflexivity | | left | reflexivity..|].
  - repeat constructor; eexists; reflexivity.
  - split; [exact Hret | apply Hsame; reflexivity].
Defined.

(** X16: command and progress parser go together.  Whatever the input,
    the builder ends in one of two ways: with an empty command and the
    [command_progress_parser] key as it found it, or, returning the
    mapping, with a [bash -c] command and the parser bound to the probed
    path.  A command is never left armed by a run that raises. *)
Theorem X16_command_and_parser_together (h : host) (s : state) :
  let r := on_worker_process h s in
  (st_data r.2 !! "exec_command" = Some (VList [])
   /\ st_data r.2 !! "command_progress_parser"
      = st_data s !! "command_progress_parser")
  \/ (exists path script,
        r.1 = Ret RData
        /\ default VNone (st_data s !! "original_file_path") = VStr path
        /\ st_data r.2 !! "exec_command"
           = Some (VList ["bash"; "-c"; script])
        /\ st_data r.2 !! "command_progress_parser"
           = Some (VCallable "parser.parse_progress" path)).
Proof.
  intros r. pose proof (worker_data_cases h s) as Hcases. fold r in Hcases.
  destruct Hcases as [-> | (p & fs & Hp & _ & _ & _ & Hret & ->)].
  - left. unfold defaults. split.
    + rewrite lookup_insert_ne by done. apply lookup_insert_eq.
    + by rewrite !lookup_insert_ne.
  - right. exists p. eexists. split; [exact Hret|]. split; [exact Hp|]. split.
    + rewrite lookup_insert_ne by done. apply lookup_insert_eq.
    + apply lookup_insert_eq.
Qed.

(** The calls of a run that stops at its second destination. *)
Example recorder_calls_until_unlistable :
  let h := mkHost (fun d => if String.eqb d "/tv"
                            then Some ["a.mp4"; "a.srt"; "a.en.SRT"]
                            else None)
                  (fun _ => true) in
  let s := mkState {[ "task_processing_success" := VBool true;
                      "destination_files" :=
                        VList ["/tv/a.mp4"; "/gone/b.mp4"] ]}
                   ∅ [] [] in
  st_calls (on_postprocessor_task_results h s).2
  = [CSet "/tv" "subs_synced" "a.mp4" (VList ["a.srt"]); CSave "/tv"].
Proof. vm_compute. reflexivity. Qed.
